(** * WebP batch converter: a Rocq model of [convert_webp_to_jpg_gui.py]

    The development follows the Python source function by function.

    - [PyStr] and [posixpath]: the string and path operations the converter
      uses to name its output ([os.path.split], [os.path.splitext],
      [os.path.join], [str.lower], [str.endswith]).
    - [world] and [M]: the file system (files, directories and what cannot
      be written or unlinked), with the calls made on it, and the
      computations that act on it and may raise.
    - [Pillow]: the interface of the imaging library (decoding, RGB
      conversion, quantisation, encoders), a parameter of what follows.
    - [convert_single_webp]: the per-file conversion.
    - [app], [select_items], [_on_mode_change], [_on_task_done] and
      [convert_all]: the application state and its handlers; the worker
      pool is a step relation that completes the submitted tasks in any
      order.
    - [Toy]: a small instance of the library on which the model runs.

    Definitions come first; the properties start at "Properties". *)

From Stdlib Require Import ZArith Ascii String List Lia Permutation.
From Stdlib Require Import Init.Byte.
From stdpp Require Import base tactics option list gmap strings.

Local Open Scope Z_scope.

(** ** Python strings *)

Abbreviation pystr := (list ascii).

(** String literals of the source are written [str "..."]. *)
Definition str (s : string) : pystr := list_ascii_of_string s.

Module PyStr.

(** [s.rfind(c)] for a one-character [c]: index of the last occurrence,
    [-1] when there is none. *)
Fixpoint rfind_from (c : ascii) (s : pystr) (i last : Z) : Z :=
  match s with
  | [] => last
  | x :: s' => rfind_from c s' (i + 1) (if decide (x = c) then i else last)
  end.

Definition rfind (c : ascii) (s : pystr) : Z := rfind_from c s 0 (-1).

(** [s[:i]] and [s[i:]] for an index [i >= 0]. *)
Definition upto (i : Z) (s : pystr) : pystr := take (Z.to_nat i) s.
Definition from (i : Z) (s : pystr) : pystr := drop (Z.to_nat i) s.

(** [s.rstrip(c)]. *)
Fixpoint rstrip (c : ascii) (s : pystr) : pystr :=
  match s with
  | [] => []
  | x :: s' =>
      match rstrip c s' with
      | [] => if decide (x = c) then [] else [x]
      | r => x :: r
      end
  end.

Definition startswith (s pre : pystr) : bool := bool_decide (pre `prefix_of` s).
Definition endswith (s suf : pystr) : bool := bool_decide (suf `suffix_of` s).

(** [s.lower()] on ASCII text. *)
Definition lower_char (c : ascii) : ascii :=
  let n := nat_of_ascii c in
  if ((65 <=? n)%nat && (n <=? 90)%nat)%bool then ascii_of_nat (n + 32) else c.

Definition lower (s : pystr) : pystr := map lower_char s.

(** [repr(s)] for a string.  The quote is the double quote when [s] holds a
    single quote and no double quote, and the single quote otherwise; the
    quote and the backslash are escaped with a backslash, tab, newline and
    carriage return are written [\t], [\n] and [\r], the other ASCII
    control characters [\xhh].  Code points beyond ASCII (here the bytes
    of their UTF-8 form) are taken to be printable, as the letters of any
    script are, and are copied. *)
Definition squote : ascii := "'"%char.
Definition dquote : ascii := ascii_of_nat 34.
Definition backslash : ascii := "\"%char.

Definition hex_digit (n : nat) : ascii := nth n (str "0123456789abcdef") "0"%char.

Definition repr_char (quote c : ascii) : pystr :=
  let n := nat_of_ascii c in
  if bool_decide (c = quote \/ c = backslash) then [backslash; c]
  else if bool_decide (n = 9%nat) then str "\t"
  else if bool_decide (n = 10%nat) then str "\n"
  else if bool_decide (n = 13%nat) then str "\r"
  else if bool_decide (n < 32 \/ n = 127)%nat
       then str "\x" ++ [hex_digit (n / 16); hex_digit (n mod 16)]
  else [c].

Definition repr (s : pystr) : pystr :=
  let quote :=
    if bool_decide (squote ∈ s) && negb (bool_decide (dquote ∈ s))
    then dquote else squote in
  [quote] ++ concat (map (repr_char quote) s) ++ [quote].

End PyStr.

(** ** [os.path] (the POSIX flavour, [posixpath.py]) *)

Module posixpath.
Import PyStr.

Definition sep : ascii := "/"%char.
Definition extsep : ascii := "."%char.

(** [os.path.split(p)]. *)
Definition split (p : pystr) : pystr * pystr :=
  let i := rfind sep p + 1 in
  let head := upto i p in
  let tail := from i p in
  let head :=
    if bool_decide (head ≠ [] ∧ head ≠ replicate (length head) sep)
    then rstrip sep head else head in
  (head, tail).

(** The [while filenameIndex < dotIndex] loop of [genericpath._splitext],
    run over [p[filenameIndex:dotIndex]]: [true] when it reaches a
    character that is not a dot and returns the split. *)
Fixpoint skip_leading_dots (seg : pystr) : bool :=
  match seg with
  | [] => false
  | c :: seg' => if decide (c ≠ extsep) then true else skip_leading_dots seg'
  end.

(** [os.path.splitext(p)]. *)
Definition splitext (p : pystr) : pystr * pystr :=
  let sepIndex := rfind sep p in
  let dotIndex := rfind extsep p in
  if (sepIndex <? dotIndex)
     && skip_leading_dots (from (sepIndex + 1) (upto dotIndex p))
  then (upto dotIndex p, from dotIndex p)
  else (p, []).

(** [os.path.join(a, b)]. *)
Definition join (a b : pystr) : pystr :=
  if startswith b [sep] then b
  else if bool_decide (a = []) || endswith a [sep] then a ++ b
  else a ++ [sep] ++ b.

End posixpath.

(** ** Exceptions, the file system and the effect monad *)

(** An instance of Python's [Exception]: its class name and [str(e)].
    Everything the imaging library and [os] raise here ([OSError] and its
    subclasses, [ValueError], [SyntaxError], [EOFError]) is one. *)
Record exn := Exn { exn_class : pystr; exn_str : pystr }.

(** A file-system call made by the converter, as it is attempted; a save
    is recorded with what its encoder produced, bytes or an exception. *)
Inductive call :=
| CallOpen (path : pystr)
| CallSave (path : pystr) (format : pystr) (encoded : exn + list byte)
| CallRemove (path : pystr).

(** The part of the machine the converter acts on: file contents by path,
    the paths that are directories, the paths that cannot be opened for
    writing, the paths that cannot be unlinked, and the calls made so far
    (oldest first).  A path that is neither a file nor a directory names
    nothing. *)
Record world := World {
  files : gmap pystr (list byte);
  directories : gset pystr;
  unwritable : gset pystr;
  undeletable : gset pystr;
  trace : list call
}.

Definition set_files (f : gmap pystr (list byte)) (w : world) : world :=
  {| files := f; directories := directories w; unwritable := unwritable w;
     undeletable := undeletable w; trace := trace w |}.

Definition log (c : call) (w : world) : world :=
  {| files := files w; directories := directories w; unwritable := unwritable w;
     undeletable := undeletable w; trace := trace w ++ [c] |}.

(** Computations that read and change the world and either return a value
    or raise. *)
Definition M (A : Type) : Type := world -> (exn + A) * world.

Global Instance M_ret : MRet M := fun A a w => (inr a, w).

Global Instance M_bind : MBind M := fun A B k m w =>
  match m w with
  | (inr a, w') => k a w'
  | (inl e, w') => (inl e, w')
  end.

Definition raise {A} (e : exn) : M A := fun w => (inl e, w).

(** A pure library call that may raise. *)
Definition lift {A} (r : exn + A) : M A := fun w => (r, w).

(** [try: body  except Exception as e: handler(e)]. *)
Definition try_except {A} (body : M A) (handler : exn -> M A) : M A :=
  fun w => match body w with
           | (inr a, w') => (inr a, w')
           | (inl e, w') => handler e w'
           end.

(** ** The imaging library *)

(** [Image.MEDIANCUT] and the other quantisation methods. *)
Inductive quantize_method := MEDIANCUT | MAXCOVERAGE | FASTOCTREE | LIBIMAGEQUANT.

(** Keyword arguments of [save(..., format="JPEG", ...)]. *)
Record jpeg_options := JpegOptions {
  quality : Z;
  subsampling : Z;
  jpeg_optimize : bool
}.

(** Keyword arguments of [save(..., format="GIF", ...)] for a picture type
    [P]; [None] is an argument that is not passed. *)
Record gif_options (P : Type) := GifOptions {
  save_all : bool;
  append_images : list P;
  loop : option Z;
  duration : option (list Z);
  disposal : option Z;
  gif_optimize : option bool
}.
Arguments GifOptions {P}.
Arguments save_all {P}.
Arguments append_images {P}.
Arguments loop {P}.
Arguments duration {P}.
Arguments disposal {P}.
Arguments gif_optimize {P}.

(** [save(path, format="GIF")] with no further argument. *)
Definition gif_defaults {P} : gif_options P :=
  GifOptions false [] None None None None.

(** One frame of an opened file: its pixel data and its [info] dictionary. *)
Record frame (P : Type) := Frame {
  pixels : P;
  info : gmap pystr Z
}.
Arguments Frame {P}.
Arguments pixels {P}.
Arguments info {P}.

(** An opened image file: the frame it is positioned on after [Image.open]
    and the frames [seek] reaches after it. *)
Record image (P : Type) := Image {
  first_frame : frame P;
  more_frames : list (frame P)
}.
Arguments Image {P}.
Arguments first_frame {P}.
Arguments more_frames {P}.

(** What [ImageSequence.Iterator(img)] yields, in order. *)
Definition Iterator {P} (img : image P) : list (frame P) :=
  first_frame img :: more_frames img.

(** The library functions the converter calls.  Their code is not part of
    the repository, so they are parameters; the two laws are what the
    library documents of [quantize]: at most [colors] palette entries, and
    with [palette=] the palette of the given image. *)
Class Pillow := {
  picture : Type;
  (** the colours of the palette of a mode-P picture *)
  palette_of : picture -> list (Z * Z * Z);
  (** [Image.open] on the bytes of a file *)
  decode : list byte -> exn + image picture;
  (** [im.convert(mode)] *)
  convert : picture -> pystr -> exn + picture;
  (** [im.quantize(colors, method, palette=...)] *)
  quantize : picture -> option picture -> Z -> option quantize_method -> exn + picture;
  (** the JPEG and GIF encoders behind [im.save] *)
  encode_JPEG : picture -> jpeg_options -> exn + list byte;
  encode_GIF : picture -> gif_options picture -> exn + list byte;
  quantize_colors : forall im n m p,
    quantize im None n m = inr p -> Z.of_nat (length (palette_of p)) <= n;
  quantize_palette : forall im pal n m p,
    quantize im (Some pal) n m = inr p -> palette_of p = palette_of pal
}.

(** ** The converter *)

(** The [OSError]s of the file-system calls; [str(e)] is
    ["[Errno N] message: "] followed by [repr] of the file name the call
    was given. *)
Definition FileNotFoundError (path : pystr) : exn :=
  Exn (str "FileNotFoundError")
      (str "[Errno 2] No such file or directory: " ++ PyStr.repr path).
Definition PermissionError (path : pystr) : exn :=
  Exn (str "PermissionError")
      (str "[Errno 13] Permission denied: " ++ PyStr.repr path).
Definition IsADirectoryError (path : pystr) : exn :=
  Exn (str "IsADirectoryError")
      (str "[Errno 21] Is a directory: " ++ PyStr.repr path).
Definition IndexError : exn :=
  Exn (str "IndexError") (str "list index out of range").

(** [os.remove(path)]. *)
Definition os_remove (path : pystr) : M unit := fun w =>
  let w := log (CallRemove path) w in
  if decide (path ∈ undeletable w) then (inl (PermissionError path), w)
  else if decide (path ∈ directories w) then (inl (IsADirectoryError path), w)
  else match files w !! path with
       | None => (inl (FileNotFoundError path), w)
       | Some _ => (inr (), set_files (delete path (files w)) w)
       end.

(** [im.save(path, format=...)]: the file is opened with mode ["w+b"], the
    encoder runs, and on an encoder error the file is removed again when
    the open created it.  What an interrupted encoder had already written
    is not modelled: an existing file is left empty. *)
Definition save (path format : pystr) (encoded : exn + list byte) : M unit := fun w =>
  let w := log (CallSave path format encoded) w in
  if decide (path ∈ directories w) then (inl (IsADirectoryError path), w)
  else if decide (path ∈ unwritable w) then (inl (PermissionError path), w)
  else match encoded with
       | inr b => (inr (), set_files (<[path := b]> (files w)) w)
       | inl e =>
           (inl e,
            match files w !! path with
            | None => w
            | Some _ => set_files (<[path := []]> (files w)) w
            end)
       end.

(** The extension and the path of the output, as lines 31-36 and 49-50
    compute them. *)
Definition out_ext (output_format : pystr) : pystr :=
  if bool_decide (output_format = str "JPEG") then str ".jpg" else str ".gif".

Definition out_path (webp_path output_format : pystr) : pystr :=
  let '(dirname, filename) := posixpath.split webp_path in
  let '(base_name, _) := posixpath.splitext filename in
  posixpath.join dirname (base_name ++ out_ext output_format).

(** The format of the [save] call of each branch: the JPEG save and the
    static GIF save pass it as [format=]; the animated GIF save passes
    none, and [save] takes it from the extension of the path. *)
Definition out_format (output_format : pystr) : pystr :=
  if bool_decide (output_format = str "JPEG") then str "JPEG" else str "GIF".

(** What [im.save(path, ...)] does first when no [format=] is passed: it
    looks the lowered extension of [path] up among the registered ones and
    raises [ValueError] when there is none.  The path of the animated save
    ends in [.gif], so its extension is [.gif] or, for a name made of dots
    only, empty: no other registered extension can occur. *)
Definition unknown_file_extension (ext : pystr) : exn :=
  Exn (str "ValueError") (str "unknown file extension: " ++ ext).

Definition format_of_extension (path : pystr) : exn + pystr :=
  let ext := PyStr.lower (posixpath.splitext path).2 in
  if bool_decide (ext = str ".gif") then inr (str "GIF")
  else inl (unknown_file_extension ext).

Section Converter.
Context `{Pillow}.

(** [Image.open(path)]: the file is opened for reading and decoded. *)
Definition Image_open (path : pystr) : M (image picture) := fun w =>
  let w := log (CallOpen path) w in
  if decide (path ∈ directories w) then (inl (IsADirectoryError path), w)
  else match files w !! path with
       | None => (inl (FileNotFoundError path), w)
       | Some b => (decode b, w)
       end.

(** [frame.info.get("duration", 100)]. *)
Definition info_get_duration (fr : frame picture) : Z :=
  default 100 (info fr !! str "duration").

(** The body of [for frame in ImageSequence.Iterator(img)], run over the
    frames still to come; [frames_rgb] and [durations] are the two lists
    the loop appends to. *)
Fixpoint remap_frames (paletted_first : picture) (frames : list (frame picture))
    (frames_rgb : list picture) (durations : list Z)
    : exn + (list picture * list Z) :=
  match frames with
  | [] => inr (frames_rgb, durations)
  | fr :: frames' =>
      match convert (pixels fr) (str "RGB") with
      | inl e => inl e
      | inr f_rgb =>
          match quantize f_rgb (Some paletted_first) 256 None with
          | inl e => inl e
          | inr f_p =>
              remap_frames paletted_first frames'
                (frames_rgb ++ [f_p]) (durations ++ [info_get_duration fr])
          end
      end
  end.

(** The JPEG branch, lines 35-46. *)
Definition convert_jpeg (webp_path dirname base_name : pystr) : M unit :=
  let out_filename := base_name ++ str ".jpg" in
  let out_path := posixpath.join dirname out_filename in
  img ← Image_open webp_path;
  img_rgb ← lift (convert (pixels (first_frame img)) (str "RGB"));
  save out_path (str "JPEG")
    (encode_JPEG img_rgb
       {| quality := 100; subsampling := 0; jpeg_optimize := true |}).

(** The GIF branch, lines 49-82. *)
Definition convert_gif (webp_path dirname base_name : pystr) : M unit :=
  let out_filename := base_name ++ str ".gif" in
  let out_path := posixpath.join dirname out_filename in
  img ← Image_open webp_path;
  first_rgb ← lift (convert (pixels (first_frame img)) (str "RGB"));
  paletted_first ← lift (quantize first_rgb None 256 (Some MEDIANCUT));
  '(frames_rgb, durations) ← lift (remap_frames paletted_first (Iterator img) [] []);
  if (length frames_rgb <=? 1)%nat then
    save out_path (str "GIF") (encode_GIF paletted_first gif_defaults)
  else
    match frames_rgb with
    | [] => raise IndexError
    | frame0 :: rest =>
        format ← lift (format_of_extension out_path);
        save out_path format
          (encode_GIF frame0
             {| save_all := true; append_images := rest; loop := Some 0;
                duration := Some durations; disposal := Some 2;
                gif_optimize := Some false |})
    end.

(** Lines 31-82: the output is named and the branch for the format runs. *)
Definition conversion (webp_path output_format : pystr) : M unit :=
  let '(dirname, filename) := posixpath.split webp_path in
  let '(base_name, _) := posixpath.splitext filename in
  if bool_decide (output_format = str "JPEG")
  then convert_jpeg webp_path dirname base_name
  else convert_gif webp_path dirname base_name.

(** [convert_single_webp(args)]: the result triple
    [(success, webp_path, error_message)]. *)
Definition convert_single_webp (args : pystr * pystr * bool)
    : M (bool * pystr * option pystr) :=
  let '(webp_path, output_format, delete_original) := args in
  try_except
    (conversion webp_path output_format;;
     (if delete_original then os_remove webp_path else mret ());;
     mret (true, webp_path, None))
    (fun e => mret (false, webp_path, Some (exn_str e))).

End Converter.

(** ** The application *)

(** A call into Tk made by the application: widget updates and message
    boxes, with the values interpolated into their texts. *)
Inductive tk_call :=
| BtnSelectConfig (text : pystr)
| LblSelectedNone                              (* "선택된 경로: 없음" *)
| LblSelectedFolder (folder_path : pystr)      (* "선택된 폴더: {folder_path}" *)
| LblSelectedCount (n : Z)                     (* "선택된 파일 개수: {n}개" *)
| ListboxDelete                                (* listbox.delete(0, tk.END) *)
| ListboxInsert (item : pystr)                 (* listbox.insert(tk.END, item) *)
| LblProgressConfig (completed total : Z)      (* "진행 상황: {completed} / {total}" *)
| ProgressVarSet (value : Z)
| PbConfigMaximum (maximum : Z)
| WarnSelectFirst                       (* "먼저 변환할 WebP 파일(또는 폴더)을 선택하세요." *)
| WarnNoWebp                            (* "선택된 폴더에 .webp 파일이 없습니다." *)
| InfoDone (total : Z).                    (* "총 {total}개의 파일을 성공적으로 변환했습니다." *)

(** The attributes of [WebPConverterApp] and the Tk calls made so far
    (oldest first). *)
Record app := App {
  webp_paths : list pystr;
  mode : pystr;
  output_format : pystr;
  delete_original : bool;
  total_files : Z;
  completed_files : Z;
  tk : list tk_call
}.

Definition tk_do (c : tk_call) (self : app) : app :=
  {| webp_paths := webp_paths self; mode := mode self;
     output_format := output_format self; delete_original := delete_original self;
     total_files := total_files self; completed_files := completed_files self;
     tk := tk self ++ [c] |}.

Definition set_webp_paths (l : list pystr) (self : app) : app :=
  {| webp_paths := l; mode := mode self;
     output_format := output_format self; delete_original := delete_original self;
     total_files := total_files self; completed_files := completed_files self;
     tk := tk self |}.

Definition set_mode (v : pystr) (self : app) : app :=
  {| webp_paths := webp_paths self; mode := v;
     output_format := output_format self; delete_original := delete_original self;
     total_files := total_files self; completed_files := completed_files self;
     tk := tk self |}.

Definition set_output_format (v : pystr) (self : app) : app :=
  {| webp_paths := webp_paths self; mode := mode self;
     output_format := v; delete_original := delete_original self;
     total_files := total_files self; completed_files := completed_files self;
     tk := tk self |}.

Definition set_delete_original (v : bool) (self : app) : app :=
  {| webp_paths := webp_paths self; mode := mode self;
     output_format := output_format self; delete_original := v;
     total_files := total_files self; completed_files := completed_files self;
     tk := tk self |}.

Definition set_total_files (n : Z) (self : app) : app :=
  {| webp_paths := webp_paths self; mode := mode self;
     output_format := output_format self; delete_original := delete_original self;
     total_files := n; completed_files := completed_files self;
     tk := tk self |}.

Definition set_completed_files (n : Z) (self : app) : app :=
  {| webp_paths := webp_paths self; mode := mode self;
     output_format := output_format self; delete_original := delete_original self;
     total_files := total_files self; completed_files := n;
     tk := tk self |}.

Definition folder_mode : pystr := str "폴더".
Definition files_mode : pystr := str "파일".

(** [__init__], up to the widgets [_create_widgets] builds. *)
Definition init : app :=
  {| webp_paths := []; mode := folder_mode; output_format := str "GIF";
     delete_original := false; total_files := 0; completed_files := 0;
     tk := [] |}.

(** [_on_mode_change]. *)
Definition _on_mode_change (self : app) : app :=
  let self :=
    if bool_decide (mode self = folder_mode)
    then tk_do (BtnSelectConfig (str "폴더 선택")) self
    else tk_do (BtnSelectConfig (str "파일 선택")) self in
  let self := set_webp_paths [] self in
  let self := tk_do ListboxDelete self in
  let self := tk_do LblSelectedNone self in
  let self := set_total_files 0 self in
  let self := set_completed_files 0 self in
  let self := tk_do (LblProgressConfig 0 0) self in
  let self := tk_do (ProgressVarSet 0) self in
  tk_do (PbConfigMaximum 1) self.

(** [len(l)]. *)
Definition len {A} (l : list A) : Z := Z.of_nat (length l).

(** The end of [select_items], lines 303-311. *)
Definition select_items_finish (self : app) : app :=
  let self := set_total_files (len (webp_paths self)) self in
  let self := set_completed_files 0 self in
  let self := tk_do (LblProgressConfig 0 (total_files self)) self in
  let self := tk_do (ProgressVarSet 0) self in
  if 0 <? total_files self
  then tk_do (PbConfigMaximum (total_files self)) self
  else tk_do (PbConfigMaximum 1) self.

(** [for p in l: self.listbox.insert(tk.END, p)]. *)
Definition listbox_insert_all (l : list pystr) (self : app) : app :=
  foldl (fun self p => tk_do (ListboxInsert p) self) self l.

(** What the user and the system answer during [select_items]: the folder
    chosen in [askdirectory] with the result of [os.listdir] on it, or the
    files chosen in [askopenfilenames]. *)
Inductive selection :=
| ChosenFolder (folder_path : pystr) (listing : exn + list pystr)
| ChosenFiles (file_paths : list pystr).

(** [select_items].  A dialog answer of the other mode than the current one
    cannot occur; it leaves the application as it is.  When [os.listdir]
    raises, the exception leaves the handler after the label update. *)
Definition select_items (answer : selection) (self : app) : app :=
  if bool_decide (mode self = folder_mode) then
    match answer with
    | ChosenFolder folder_path listing =>
        if bool_decide (folder_path = []) then self
        else
          let self := tk_do (LblSelectedFolder folder_path) self in
          match listing with
          | inl _ => self
          | inr all_files =>
              let webp_list :=
                map (posixpath.join folder_path)
                  (filter (fun f => PyStr.lower (posixpath.splitext f).2 = str ".webp")
                     all_files) in
              let self := set_webp_paths webp_list self in
              let self := tk_do ListboxDelete self in
              let self :=
                if bool_decide (webp_list = [])
                then tk_do (ListboxInsert (str "(폴더에 .webp 파일이 없습니다)")) self
                else listbox_insert_all webp_list self in
              select_items_finish self
          end
    | ChosenFiles _ => self
    end
  else
    match answer with
    | ChosenFiles file_paths =>
        if bool_decide (file_paths = []) then self
        else
          let self := tk_do (LblSelectedCount (len file_paths)) self in
          let self := set_webp_paths file_paths self in
          let self := tk_do ListboxDelete self in
          let self := listbox_insert_all file_paths self in
          select_items_finish self
    | ChosenFolder _ _ => self
    end.

(** [_on_task_done(result)]. *)
Definition _on_task_done (result : bool * pystr * option pystr) (self : app) : app :=
  let '(success, webp_path, err) := result in
  let self := set_completed_files (completed_files self + 1) self in
  let self := tk_do (LblProgressConfig (completed_files self) (total_files self)) self in
  let self := tk_do (ProgressVarSet (completed_files self)) self in
  if bool_decide (completed_files self = total_files self)
  then tk_do (InfoDone (total_files self)) self
  else self.

(** The argument tuple of [convert_single_webp]. *)
Abbreviation task := (pystr * pystr * bool)%type.

(** The second guard of [convert_all], line 347. *)
Definition no_webp_in_folder (self : app) : bool :=
  bool_decide (mode self = folder_mode)
  && forallb (fun p => negb (PyStr.endswith (PyStr.lower p) (str ".webp")))
       (webp_paths self).

(** The tasks the [for] loop of [convert_all] hands to [apply_async], in
    submission order. *)
Definition submitted (self : app) : list task :=
  map (fun webp_path => (webp_path, output_format self, delete_original self))
    (webp_paths self).

Section Dispatcher.
Context `{Pillow}.

(** [multiprocessing.cpu_count()]. *)
Variable cpu_count : nat.

(** A [multiprocessing.Pool] at work: the tasks not yet taken by a worker
    (first in, first out), the tasks the workers are on, and the
    application and machine they act on.  A task takes effect on the
    machine when it completes. *)
Record pool := Pool {
  queue : list task;
  running : list task;
  pool_app : app;
  pool_world : world
}.

(** One move of the pool: an idle worker takes the next task, or some
    worker completes its task and the result handler runs the callback;
    a task that raised would complete without a callback. *)
Inductive pool_step : pool -> pool -> Prop :=
| step_take t queue running self w :
    (length running < cpu_count)%nat ->
    pool_step (Pool (t :: queue) running self w)
              (Pool queue (running ++ [t]) self w)
| step_done before t after queue self w result w' :
    convert_single_webp t w = (inr result, w') ->
    pool_step (Pool queue (before ++ t :: after) self w)
              (Pool queue (before ++ after) (_on_task_done result self) w')
| step_raised before t after queue self w e w' :
    convert_single_webp t w = (inl e, w') ->
    pool_step (Pool queue (before ++ t :: after) self w)
              (Pool queue (before ++ after) self w').

(** [pool.join()] returns once nothing is queued or running. *)
Definition drained (p : pool) : Prop := queue p = [] ∧ running p = [].

(** The pool after [Pool(processes=num_workers)], the reset of
    [completed_files] and the [apply_async] loop. *)
Definition pool_submitted (self : app) (w : world) : pool :=
  Pool (submitted self) [] (set_completed_files 0 self) w.

(** [convert_all], from the click to the return of [pool.join()]. *)
Inductive convert_all : app * world -> app * world -> Prop :=
| convert_all_nothing self w :
    webp_paths self = [] ->
    convert_all (self, w) (tk_do WarnSelectFirst self, w)
| convert_all_no_webp self w :
    webp_paths self ≠ [] ->
    no_webp_in_folder self = true ->
    convert_all (self, w) (tk_do WarnNoWebp self, w)
| convert_all_pool self w p :
    webp_paths self ≠ [] ->
    no_webp_in_folder self = false ->
    rtc pool_step (pool_submitted self w) p ->
    drained p ->
    convert_all (self, w) (pool_app p, pool_world p).

(** The run of the pool in which the tasks complete one after the other
    in submission order. *)
Fixpoint run_in_order (tasks : list task) (self : app) (w : world) : app * world :=
  match tasks with
  | [] => (self, w)
  | t :: tasks' =>
      match convert_single_webp t w with
      | (inr result, w') => run_in_order tasks' (_on_task_done result self) w'
      | (inl _, w') => run_in_order tasks' self w'
      end
  end.

Definition convert_all_in_order (self : app) (w : world) : app * world :=
  if bool_decide (webp_paths self = []) then (tk_do WarnSelectFirst self, w)
  else if no_webp_in_folder self then (tk_do WarnNoWebp self, w)
  else run_in_order (submitted self) (set_completed_files 0 self) w.

(** The states of the application the user can bring about. *)
Inductive reachable : app -> Prop :=
| reach_init : reachable init
| reach_mode self v :
    reachable self -> v = folder_mode ∨ v = files_mode ->
    reachable (_on_mode_change (set_mode v self))
| reach_select self answer :
    reachable self -> reachable (select_items answer self)
| reach_format self v :
    reachable self -> v = str "GIF" ∨ v = str "JPEG" ->
    reachable (set_output_format v self)
| reach_delete self b :
    reachable self -> reachable (set_delete_original b self)
| reach_convert self w self' w' :
    reachable self -> convert_all (self, w) (self', w') -> reachable self'.

End Dispatcher.

(** How many progress updates and how many completion messages a sequence
    of Tk calls holds. *)
Definition is_progress_update (c : tk_call) : bool :=
  match c with LblProgressConfig _ _ => true | _ => false end.
Definition is_done_message (c : tk_call) : bool :=
  match c with InfoDone _ => true | _ => false end.
Definition progress_updates (l : list tk_call) : Z :=
  len (List.filter is_progress_update l).
Definition done_messages (l : list tk_call) : Z :=
  len (List.filter is_done_message l).

(** ** Vocabulary of the statements *)

(** The source file of a task is removed between two states of the
    machine. *)
Definition removed (path : pystr) (w w' : world) : Prop :=
  is_Some (files w !! path) ∧ files w' !! path = None.

(** The calls a computation added to the trace. *)
Definition calls_between (w w' : world) (l : list call) : Prop :=
  trace w' = trace w ++ l.

Definition is_save (c : call) : bool :=
  match c with CallSave _ _ _ => true | _ => false end.

Section Vocabulary.
Context `{Pillow}.

(** [f_p] is [fr] converted to RGB and mapped onto the palette of
    [paletted_first]. *)
Definition remapped (paletted_first : picture) (fr : frame picture) (f_p : picture) : Prop :=
  ∃ f_rgb, convert (pixels fr) (str "RGB") = inr f_rgb
           ∧ quantize f_rgb (Some paletted_first) 256 None = inr f_p.

(** [paletted_first] is the median-cut quantisation, to 256 colours, of
    the first frame of [img] converted to RGB. *)
Definition canonical_palette (img : image picture) (paletted_first : picture) : Prop :=
  ∃ first_rgb, convert (pixels (first_frame img)) (str "RGB") = inr first_rgb
               ∧ quantize first_rgb None 256 (Some MEDIANCUT) = inr paletted_first.

(** The encoder call of the JPEG branch on the opened image [img]. *)
Definition jpeg_call (img : image picture) (encoded : exn + list byte) : Prop :=
  ∃ img_rgb, convert (pixels (first_frame img)) (str "RGB") = inr img_rgb
             ∧ encoded = encode_JPEG img_rgb
                           {| quality := 100; subsampling := 0; jpeg_optimize := true |}.

(** The encoder call of the GIF branch on the opened image [img]: the
    static one for a single frame, the animated one otherwise. *)
Definition gif_call (img : image picture) (encoded : exn + list byte) : Prop :=
  ∃ paletted_first frames_rgb,
    canonical_palette img paletted_first
    ∧ Forall2 (remapped paletted_first) (Iterator img) frames_rgb
    ∧ match frames_rgb with
      | [] => False
      | [_] => encoded = encode_GIF paletted_first gif_defaults
      | frame0 :: rest =>
          encoded = encode_GIF frame0
                      {| save_all := true; append_images := rest; loop := Some 0;
                         duration := Some (map info_get_duration (Iterator img));
                         disposal := Some 2; gif_optimize := Some false |}
      end.

Definition encoder_call (output_format : pystr) (img : image picture)
    (encoded : exn + list byte) : Prop :=
  if bool_decide (output_format = str "JPEG")
  then jpeg_call img encoded else gif_call img encoded.

End Vocabulary.

(** The state of a batch started from [self0], while its pool runs: the
    selection and the options are those of [self0]; every task is queued,
    running or counted; and since the click there was one progress update
    per counted task, and a completion message once all are counted. *)
Definition batch_inv (self0 : app) {T} (queue running : list T) (self : app) : Prop :=
  webp_paths self = webp_paths self0
  ∧ mode self = mode self0
  ∧ output_format self = output_format self0
  ∧ delete_original self = delete_original self0
  ∧ total_files self = total_files self0
  ∧ completed_files self + len queue + len running = total_files self0
  ∧ ∃ new, tk self = tk self0 ++ new
           ∧ progress_updates new = completed_files self
           ∧ done_messages new
             = if bool_decide (completed_files self = total_files self0) then 1 else 0.

(** What the selection handlers establish: the total is the number of
    selected paths, and in folder mode every selected path is named
    [*.webp] in some letter case. *)
Definition app_inv (self : app) : Prop :=
  total_files self = len (webp_paths self)
  ∧ (mode self = folder_mode ->
     Forall (fun p => PyStr.endswith (PyStr.lower p) (str ".webp") = true)
       (webp_paths self)).

(** The progress pairs a sequence of Tk calls puts on the progress label,
    in order. *)
Definition published (l : list tk_call) : list (Z * Z) :=
  omap (fun c => match c with
                 | LblProgressConfig completed total => Some (completed, total)
                 | _ => None
                 end) l.

(** While the pool of a batch started from [self0] runs: the progress
    pairs published since the click count up from 1 to the counter, and
    once the counter has reached the total the last Tk call is the
    completion message. *)
Definition progress_inv (self0 self : app) : Prop :=
  0 <= completed_files self
  ∧ ∃ new, tk self = tk self0 ++ new
     ∧ published new
       = (fun c => (c, total_files self0)) <$> seqZ 1 (completed_files self)
     ∧ (completed_files self = total_files self0 -> 0 < total_files self0 ->
        last new = Some (InfoDone (total_files self0))).

(** ** A small instance of the library, to run the model on

    A file is a list of bytes, one per frame: a frame is a single grey pixel
    of that value.  A file that is empty or starts with a zero byte does not
    decode.  Frames of files with several frames carry a duration of 80.
    The GIF writer writes a frame that repeats the one before it only
    once, as Pillow's does. *)
Module Toy.

Definition picture : Type := list (Z * Z * Z) * list (Z * Z * Z).

Definition ValueError : exn := Exn (str "ValueError") (str "bad argument").
Definition UnidentifiedImageError : exn :=
  Exn (str "UnidentifiedImageError") (str "cannot identify image file").

Definition grey (animated : bool) (b : byte) : frame picture :=
  let n := Z.of_N (Byte.to_N b) in
  Frame ([], [(n, n, n)])
        (if animated then {[ str "duration" := 80 ]} else ∅).

Definition decode (bytes : list byte) : exn + image picture :=
  match bytes with
  | [] => inl UnidentifiedImageError
  | x00 :: _ => inl UnidentifiedImageError
  | b :: [] => inr (Image (grey false b) [])
  | b :: bs => inr (Image (grey true b) (map (grey true) bs))
  end.

Definition convert (im : picture) (mode : pystr) : exn + picture :=
  if bool_decide (mode = str "RGB") then inr ([], im.2) else inl ValueError.

Definition quantize (im : picture) (palette : option picture) (colors : Z)
    (method : option quantize_method) : exn + picture :=
  match palette with
  | Some pal => inr (pal.1, im.2)
  | None =>
      if colors <? 1 then inl ValueError
      else inr (take (Z.to_nat colors) im.2, im.2)
  end.

Definition encode_JPEG (im : picture) (o : jpeg_options) : exn + list byte :=
  if bool_decide (im.2 = []) then inl ValueError else inr [xff; xd8; xff; xd9].

(** The frames a GIF file gets: a frame identical to the one before it is
    not written again, as in Pillow's GIF writer, which adds its duration
    to that of the frame before. *)
Fixpoint merge_repeats (frames : list picture) : list picture :=
  match frames with
  | [] => []
  | im :: frames' =>
      match frames' with
      | [] => [im]
      | im' :: _ =>
          if decide (im = im') then merge_repeats frames'
          else im :: merge_repeats frames'
      end
  end.

(** A GIF file here is the signature followed by one image separator
    (the byte 0x2C) per frame. *)
Definition encode_GIF (im : picture) (o : gif_options picture) : exn + list byte :=
  if bool_decide (im.1 = []) then inl ValueError
  else
    let frames := im :: (if save_all o then append_images o else []) in
    inr ([x47; x49; x46] ++ replicate (length (merge_repeats frames)) x2c).

(** The number of frames of a GIF file of this form. *)
Definition frames_in (gif : list byte) : nat :=
  length (List.filter (fun b => Byte.eqb b x2c) gif).

(** The instance; its two laws hold by the definition of [quantize]. *)
#[export] Instance pillow : Pillow.
Proof.
  refine (Build_Pillow picture fst decode convert quantize encode_JPEG encode_GIF _ _).
  - intros im n m p. unfold quantize. destruct (Z.ltb_spec n 1); [discriminate|].
    intros [= <-]. cbn. rewrite length_take. lia.
  - intros im pal n m p. unfold quantize. by intros [= <-].
Defined.

(** A machine with a still image, an animation of three frames, a
    corrupt file and a folder whose name ends in [.webp]. *)
Definition machine : world :=
  {| files := {[ str "pics/photo.webp" := [x07];
                 str "pics/anim.webp" := [x01; x02; x03];
                 str "pics/bad.webp" := [x00; x01] ]};
     directories := {[ str "pics"; str "pics/album.webp" ]};
     unwritable := ∅; undeletable := ∅; trace := [] |}.

(** The same machine, where the still image cannot be unlinked. *)
Definition locked : world :=
  {| files := files machine; directories := directories machine; unwritable := ∅;
     undeletable := {[ str "pics/photo.webp" ]}; trace := [] |}.

(** A machine with an animation whose three frames are the same picture. *)
Definition blinking : world :=
  {| files := {[ str "pics/blink.webp" := [x05; x05; x05] ]};
     directories := {[ str "pics" ]};
     unwritable := ∅; undeletable := ∅; trace := [] |}.

(** The application after the user switched to file mode and chose the
    still image and the corrupt file. *)
Definition two_files : app :=
  select_items (ChosenFiles [str "pics/photo.webp"; str "pics/bad.webp"])
    (_on_mode_change (set_mode files_mode init)).

End Toy.

(** * Properties *)

Arguments str : simpl never.
Arguments Iterator : simpl never.
Arguments out_path : simpl never.
Arguments out_format : simpl never.
Arguments out_ext : simpl never.


(** ** Strings and paths *)

Lemma lower_app (a b : pystr) : PyStr.lower (a ++ b) = PyStr.lower a ++ PyStr.lower b.
Proof. apply map_app. Qed.

Lemma lower_suffix (a b : pystr) : a `suffix_of` b -> PyStr.lower a `suffix_of` PyStr.lower b.
Proof. intros [k ->]. rewrite lower_app. by apply suffix_app_r. Qed.

Lemma endswith_true (s suf : pystr) : PyStr.endswith s suf = true <-> suf `suffix_of` s.
Proof. unfold PyStr.endswith. by rewrite bool_decide_eq_true. Qed.

(** [os.path.splitext] cuts its argument in two. *)
Lemma splitext_app (p : pystr) :
  (posixpath.splitext p).1 ++ (posixpath.splitext p).2 = p.
Proof.
  unfold posixpath.splitext.
  destruct (_ && _); cbn; [apply take_drop | apply app_nil_r].
Qed.

(** [os.path.join(a, b)] ends with [b]. *)
Lemma join_suffix (a b : pystr) : b `suffix_of` posixpath.join a b.
Proof.
  unfold posixpath.join.
  destruct (PyStr.startswith _ _); [done|].
  destruct (_ || _); [by apply suffix_app_r|].
  rewrite app_assoc. by apply suffix_app_r.
Qed.

Lemma out_path_suffix (webp_path output_format : pystr) :
  out_ext output_format `suffix_of` out_path webp_path output_format.
Proof.
  unfold out_path.
  destruct (posixpath.split webp_path) as [dirname filename].
  destruct (posixpath.splitext filename) as [base_name ext].
  etrans; [|apply join_suffix]. by apply suffix_app_r.
Qed.

(** The output never lands on a source named [*.webp], in any letter
    case. *)
Lemma out_path_ne (webp_path output_format : pystr) :
  PyStr.endswith (PyStr.lower webp_path) (str ".webp") = true ->
  out_path webp_path output_format ≠ webp_path.
Proof.
  intros Hw%endswith_true Heq.
  pose proof (lower_suffix _ _ (out_path_suffix webp_path output_format)) as Ho.
  rewrite Heq in Ho. unfold out_ext in Ho.
  destruct (bool_decide (output_format = str "JPEG"));
    destruct (suffix_weak_total _ _ _ Ho Hw) as [Hs|Hs];
    apply (bool_decide_eq_true_2 _) in Hs; by vm_compute in Hs.
Qed.

Lemma rfind_from_notin c (s : pystr) i last :
  c ∉ s -> PyStr.rfind_from c s i last = last.
Proof.
  revert i last. induction s as [|x s IH]; intros i last Hc; cbn; [done|].
  apply not_elem_of_cons in Hc as [Hx Hs].
  rewrite decide_False by done. by apply IH.
Qed.

Lemma rfind_from_last c (a b : pystr) i last :
  c ∉ b -> PyStr.rfind_from c (a ++ c :: b) i last = i + len a.
Proof.
  intros Hb. revert i last. induction a as [|x a IH]; intros i last; cbn.
  - rewrite decide_True by done. rewrite rfind_from_notin by done. unfold len. cbn. lia.
  - rewrite IH. unfold len. cbn. lia.
Qed.

Lemma rfind_notin c (s : pystr) : c ∉ s -> PyStr.rfind c s = -1.
Proof. apply rfind_from_notin. Qed.

Lemma rfind_last c (a b : pystr) : c ∉ b -> PyStr.rfind c (a ++ c :: b) = len a.
Proof. intros Hb. unfold PyStr.rfind. by rewrite rfind_from_last. Qed.

Lemma rstrip_snoc_ne c (s : pystr) x : x ≠ c -> PyStr.rstrip c (s ++ [x]) = s ++ [x].
Proof.
  intros Hx. induction s as [|y s IH]; cbn.
  - by rewrite decide_False.
  - rewrite IH. by destruct s.
Qed.

Lemma rstrip_snoc c (s : pystr) : PyStr.rstrip c (s ++ [c]) = PyStr.rstrip c s.
Proof.
  induction s as [|y s IH]; cbn.
  - by rewrite decide_True.
  - by rewrite IH.
Qed.

Lemma skip_leading_dots_true (seg : pystr) x :
  x ∈ seg -> x ≠ posixpath.extsep -> posixpath.skip_leading_dots seg = true.
Proof.
  intros Hin Hx. induction seg as [|y seg IH]; [by apply elem_of_nil in Hin|]. cbn.
  destruct (decide (y ≠ posixpath.extsep)); [done|].
  apply elem_of_cons in Hin as [->|Hin]; [done|by apply IH].
Qed.

(** [os.path.split] cuts [dir/name] at its last slash. *)
Lemma split_dir_name (dir : pystr) c (name : pystr) :
  c ≠ posixpath.sep -> posixpath.sep ∉ name ->
  posixpath.split (dir ++ [c] ++ [posixpath.sep] ++ name) = (dir ++ [c], name).
Proof.
  intros Hc Hname. unfold posixpath.split, PyStr.upto, PyStr.from.
  replace (dir ++ [c] ++ [posixpath.sep] ++ name)
    with ((dir ++ [c]) ++ posixpath.sep :: name) by by rewrite <-app_assoc.
  rewrite rfind_last by done.
  replace (Z.to_nat (len (dir ++ [c]) + 1)) with (length ((dir ++ [c]) ++ [posixpath.sep]))
    by (unfold len; rewrite !length_app; cbn; lia).
  replace ((dir ++ [c]) ++ posixpath.sep :: name)
    with (((dir ++ [c]) ++ [posixpath.sep]) ++ name) by by rewrite <-!app_assoc.
  rewrite take_app_length, drop_app_length.
  rewrite bool_decide_eq_true_2.
  - by rewrite rstrip_snoc, rstrip_snoc_ne.
  - split; [by destruct dir|]. intros Hall.
    assert (c ∈ replicate (length ((dir ++ [c]) ++ [posixpath.sep])) posixpath.sep) as Hin.
    { rewrite <-Hall. set_solver. }
    by apply elem_of_replicate in Hin as [-> _].
Qed.

(** [os.path.splitext] cuts [stem.ext] at its last dot, when the stem is
    not made of dots only. *)
Lemma splitext_stem_ext (stem e : pystr) x :
  posixpath.sep ∉ stem -> posixpath.sep ∉ e -> posixpath.extsep ∉ e ->
  x ∈ stem -> x ≠ posixpath.extsep ->
  posixpath.splitext (stem ++ posixpath.extsep :: e) = (stem, posixpath.extsep :: e).
Proof.
  intros Hs1 Hs2 He Hx1 Hx2. unfold posixpath.splitext, PyStr.upto, PyStr.from.
  rewrite rfind_last by done.
  rewrite rfind_notin.
  2:{ intros [?|[?|?]%elem_of_cons]%elem_of_app; done. }
  replace (Z.to_nat (len stem)) with (length stem) by (unfold len; lia).
  rewrite take_app_length, drop_app_length. cbn [Z.to_nat Z.add]. rewrite drop_0.
  rewrite (skip_leading_dots_true stem x) by done.
  replace (-1 <? len stem) with true by (symmetry; apply Z.ltb_lt; unfold len; lia).
  done.
Qed.

(** [os.path.join] puts one slash between a directory that does not end
    in one and a name that does not start with one. *)
Lemma join_dir_name (dir : pystr) c (name : pystr) :
  c ≠ posixpath.sep -> ¬ [posixpath.sep] `prefix_of` name ->
  posixpath.join (dir ++ [c]) name = dir ++ [c] ++ [posixpath.sep] ++ name.
Proof.
  intros Hc Hname. unfold posixpath.join, PyStr.startswith, PyStr.endswith.
  rewrite bool_decide_eq_false_2 by done.
  rewrite bool_decide_eq_false_2 by by destruct dir.
  rewrite bool_decide_eq_false_2.
  - by rewrite <-!app_assoc.
  - intros [k Hk]. apply app_inj_2 in Hk as [_ [= ->]]; done.
Qed.

(** For a source [dir/stem.ext] the output is [dir/stem.jpg] or
    [dir/stem.gif]: the extension is replaced. *)
Lemma out_path_replaces_extension (dir : pystr) c (stem e : pystr) x output_format :
  c ≠ posixpath.sep ->
  posixpath.sep ∉ stem -> posixpath.sep ∉ e -> posixpath.extsep ∉ e ->
  x ∈ stem -> x ≠ posixpath.extsep ->
  out_path (dir ++ [c] ++ [posixpath.sep] ++ stem ++ posixpath.extsep :: e) output_format
  = dir ++ [c] ++ [posixpath.sep] ++ stem ++ out_ext output_format.
Proof.
  intros Hc Hs1 Hs2 He Hx1 Hx2. unfold out_path.
  rewrite split_dir_name; [|done|].
  2:{ intros [?|[?|?]%elem_of_cons]%elem_of_app; done. }
  rewrite (splitext_stem_ext stem e x) by done.
  apply join_dir_name; [done|].
  intros [k Hk]. destruct stem as [|y stem]; [by apply elem_of_nil in Hx1|].
  injection Hk as -> _. apply Hs1. by left.
Qed.

Example out_path_photo :
  out_path (str "pics/holiday/photo.v2.webp") (str "JPEG") = str "pics/holiday/photo.v2.jpg".
Proof. reflexivity. Qed.

Example split_ex1 :
  posixpath.split (str "dir/sub/photo.webp") = (str "dir/sub", str "photo.webp").
Proof. reflexivity. Qed.

Example split_ex2 : posixpath.split (str "/photo.webp") = (str "/", str "photo.webp").
Proof. reflexivity. Qed.

Example split_ex3 : posixpath.split (str "photo.webp") = ([], str "photo.webp").
Proof. reflexivity. Qed.

Example splitext_ex1 : posixpath.splitext (str "photo.v2.webp") = (str "photo.v2", str ".webp").
Proof. reflexivity. Qed.

Example splitext_ex2 : posixpath.splitext (str ".webp") = (str ".webp", []).
Proof. reflexivity. Qed.

Example join_ex1 : posixpath.join (str "dir") (str "photo.jpg") = str "dir/photo.jpg".
Proof. reflexivity. Qed.

Example join_ex2 : posixpath.join [] (str "photo.jpg") = str "photo.jpg".
Proof. reflexivity. Qed.

Example lower_ex : PyStr.lower (str "A.WebP") = str "a.webp".
Proof. reflexivity. Qed.

(** [repr] on a plain path, on strings with quotes and a backslash, and on
    control characters; and the message of an [OSError]. *)
Example repr_ex1 : PyStr.repr (str "pics/none.webp") = str "'pics/none.webp'".
Proof. reflexivity. Qed.

Example repr_ex2 :
  PyStr.repr (str "it's") = PyStr.dquote :: str "it's" ++ [PyStr.dquote].
Proof. reflexivity. Qed.

Example repr_ex3 :
  PyStr.repr (str "a'b" ++ [PyStr.dquote] ++ str "c\d")
  = str "'a\'b" ++ [PyStr.dquote] ++ str "c\\d'".
Proof. reflexivity. Qed.

Example repr_ex4 :
  PyStr.repr (map ascii_of_nat [9; 10; 13; 1; 127; 31]%nat)
  = str "'\t\n\r\x01\x7f\x1f'".
Proof. reflexivity. Qed.

Example FileNotFoundError_ex :
  exn_str (FileNotFoundError (str "pics/none.webp"))
  = str "[Errno 2] No such file or directory: 'pics/none.webp'".
Proof. reflexivity. Qed.

(** The extension of the output path of the GIF branch is [.gif], or is
    empty for a name made of dots only. *)
Lemma gif_out_path_extension webp_path output_format :
  output_format ≠ str "JPEG" ->
  let ext := (posixpath.splitext (out_path webp_path output_format)).2 in
  ext = str ".gif" ∨ ext = [].
Proof.
  intros Hfmt. cbv zeta.
  destruct (out_path_suffix webp_path output_format) as [k Hk].
  unfold out_ext in Hk. rewrite bool_decide_eq_false_2 in Hk by done.
  rewrite Hk. unfold posixpath.splitext.
  destruct (_ && _); [|by right]. left. cbn [snd].
  change (str ".gif") with (posixpath.extsep :: str "gif").
  rewrite rfind_last.
  2:{ apply (bool_decide_eq_false_1 _). by vm_compute. }
  unfold PyStr.from, len. rewrite Nat2Z.id. by rewrite drop_app_length.
Qed.

Example format_of_extension_ex1 :
  format_of_extension (str "pics/anim.gif") = inr (str "GIF").
Proof. reflexivity. Qed.

Example format_of_extension_ex2 :
  out_path (str "pics/...") (str "GIF") = str "pics/....gif"
  /\ format_of_extension (str "pics/....gif") = inl (unknown_file_extension []).
Proof. split; reflexivity. Qed.

(** ** The converter *)

Section ConverterFacts.
Context `{Pillow}.

(** The handler of [convert_single_webp] turns every exception into a
    result: the function always returns. *)
Lemma convert_single_webp_returns (args : task) (w : world) :
  ∃ result w', convert_single_webp args w = (inr result, w').
Proof.
  destruct args as [[webp_path output_format] delete_original].
  unfold convert_single_webp, try_except.
  match goal with
  | |- context [match ?x with _ => _ end] => destruct x as [[e|result] w']
  end; eauto.
Qed.

(** The first component of the result tells whether the body went
    through. *)
Lemma convert_single_webp_success webp_path output_format delete_original w result w' :
  convert_single_webp (webp_path, output_format, delete_original) w = (inr result, w') ->
  result.1.1 = true ->
  ∃ w1, conversion webp_path output_format w = (inr (), w1)
        ∧ (if delete_original then os_remove webp_path else mret ()) w1 = (inr (), w').
Proof.
  unfold convert_single_webp, try_except, mbind, M_bind.
  destruct (conversion _ _ w) as [[e|[]] w1]; [by intros [= <- <-]|].
  destruct delete_original.
  - destruct (os_remove webp_path w1) as [[e|[]] w2] eqn:Hrm; [by intros [= <- <-]|].
    intros [= <- <-] _. eauto.
  - intros [= <- <-] _. eauto.
Qed.

End ConverterFacts.

Section ConversionFacts.
Context `{Pillow}.

(** The loop over the frames keeps what was collected before it, maps
    every frame in order and collects one duration per frame. *)
Lemma remap_frames_spec paletted_first frames frames_rgb durations frames_rgb' durations' :
  remap_frames paletted_first frames frames_rgb durations = inr (frames_rgb', durations') ->
  ∃ new, frames_rgb' = frames_rgb ++ new
         ∧ Forall2 (remapped paletted_first) frames new
         ∧ durations' = durations ++ map info_get_duration frames.
Proof.
  revert frames_rgb durations.
  induction frames as [|fr frames IH]; intros frames_rgb durations; cbn.
  - intros [= <- <-]. exists []. by rewrite !app_nil_r.
  - destruct (convert _ _) as [e|f_rgb] eqn:Hc; [done|].
    destruct (quantize _ _ _ _) as [e|f_p] eqn:Hq; [done|].
    intros (new & -> & Hall & ->)%IH. exists (f_p :: new).
    rewrite <-!app_assoc. split_and!; [done| |done].
    constructor; [by exists f_rgb|done].
Qed.

(** What a run of [conversion] amounts to: the source is opened, and
    either an exception ends the run before anything is written, or the
    run is one [save] of the encoder call of the branch. *)
Lemma conversion_inv webp_path output_format w r w1 :
  conversion webp_path output_format w = (r, w1) ->
  (∃ e, r = inl e ∧ w1 = log (CallOpen webp_path) w)
  ∨ (∃ b img encoded,
       files w !! webp_path = Some b ∧ decode b = inr img
       ∧ encoder_call output_format img encoded
       ∧ save (out_path webp_path output_format) (out_format output_format) encoded
           (log (CallOpen webp_path) w) = (r, w1)).
Proof.
  unfold conversion, out_path, out_format, out_ext, encoder_call.
  destruct (posixpath.split webp_path) as [dirname filename].
  destruct (posixpath.splitext filename) as [base_name ext].
  case_bool_decide.
  - unfold convert_jpeg, Image_open, lift, mbind, M_bind. cbn.
    destruct (decide (webp_path ∈ directories w)); [intros [= <- <-]; eauto|].
    destruct (files w !! webp_path) as [b|] eqn:Hb; [|intros [= <- <-]; eauto].
    destruct (decode b) as [e|img] eqn:Hd; [intros [= <- <-]; eauto|].
    destruct (convert _ _) as [e|img_rgb] eqn:Hc; [intros [= <- <-]; eauto|].
    intros Hsave. right. exists b, img. eexists. split_and!; [done..| |exact Hsave].
    by exists img_rgb.
  - unfold convert_gif, Image_open, lift, mbind, M_bind. cbn.
    destruct (decide (webp_path ∈ directories w)); [intros [= <- <-]; eauto|].
    destruct (files w !! webp_path) as [b|] eqn:Hb; [|intros [= <- <-]; eauto].
    destruct (decode b) as [e|img] eqn:Hd; [intros [= <- <-]; eauto|].
    destruct (convert _ _) as [e|first_rgb] eqn:Hc; [intros [= <- <-]; eauto|].
    destruct (quantize first_rgb _ _ _) as [e|paletted_first] eqn:Hq;
      [intros [= <- <-]; eauto|].
    destruct (remap_frames _ _ _ _) as [e|[frames_rgb durations]] eqn:Hr;
      [intros [= <- <-]; eauto|].
    apply remap_frames_spec in Hr as (new & -> & Hall & ->). cbn in *.
    assert (∃ f_p new', new = f_p :: new') as (f_p & new' & ->).
    { unfold Iterator in Hall. inversion Hall; eauto. }
    destruct new' as [|f_p' new']; cbn.
    + intros Hsave. right. exists b, img.
      eexists; split_and!; [done..| |exact Hsave].
      eexists paletted_first, _; split_and!; [by exists first_rgb|exact Hall|done].
    + unfold format_of_extension. case_bool_decide; cbn; [|intros [= <- <-]; eauto].
      intros Hsave. right. exists b, img.
      eexists; split_and!; [done..| |exact Hsave].
      eexists paletted_first, _; split_and!; [by exists first_rgb|exact Hall|done].
Qed.

End ConversionFacts.

(** [im.save] logs one call, leaves every other path alone, never makes an
    existing file disappear, and on success leaves the encoder's bytes. *)
Lemma save_inv path format encoded w r w' :
  save path format encoded w = (r, w') ->
  calls_between w w' [CallSave path format encoded]
  ∧ undeletable w' = undeletable w
  ∧ (∀ q, q ≠ path -> files w' !! q = files w !! q)
  ∧ (is_Some (files w !! path) -> is_Some (files w' !! path))
  ∧ match r with
    | inr _ => ∃ bytes, encoded = inr bytes ∧ files w' = <[path := bytes]> (files w)
    | inl _ => True
    end.
Proof.
  unfold save, calls_between. cbn.
  destruct (decide (path ∈ directories w)); [by intros [= <- <-]|].
  destruct (decide (path ∈ unwritable w)); [by intros [= <- <-]|].
  destruct encoded as [e|bytes]; intros [= <- <-]; [destruct (files w !! path) eqn:Hp|];
    cbn; split_and!; try done;
    try (intros q Hq; by rewrite lookup_insert_ne);
    try (intros _; rewrite lookup_insert_eq; by eauto);
    eauto.
Qed.

(** [os.remove] logs one call and either unlinks an existing file or
    raises and leaves the files as they are. *)
Lemma os_remove_inv path w r w' :
  os_remove path w = (r, w') ->
  calls_between w w' [CallRemove path]
  ∧ match r with
    | inr _ => is_Some (files w !! path) ∧ files w' = delete path (files w)
    | inl _ => files w' = files w
    end.
Proof.
  unfold os_remove, calls_between. cbn.
  destruct (decide (path ∈ undeletable w)); [by intros [= <- <-]|].
  destruct (decide (path ∈ directories w)); [by intros [= <- <-]|].
  destruct (files w !! path) eqn:Hp; intros [= <- <-]; cbn; eauto.
Qed.

Section TaskFacts.
Context `{Pillow}.

(** The runs of [convert_single_webp]: the conversion fails before the
    save; or the save of the branch's encoder call fails; or it succeeds
    and the source is kept, removed, or fails to be removed. *)
Lemma convert_single_webp_inv webp_path output_format delete_original w result w' :
  convert_single_webp (webp_path, output_format, delete_original) w = (inr result, w') ->
  (∃ e, result = (false, webp_path, Some (exn_str e))
        ∧ w' = log (CallOpen webp_path) w)
  ∨ (∃ b img encoded r1 w1,
       files w !! webp_path = Some b ∧ decode b = inr img
       ∧ encoder_call output_format img encoded
       ∧ save (out_path webp_path output_format) (out_format output_format) encoded
           (log (CallOpen webp_path) w) = (r1, w1)
       ∧ match r1 with
         | inl e => result = (false, webp_path, Some (exn_str e)) ∧ w' = w1
         | inr _ =>
             if delete_original
             then ∃ r2, os_remove webp_path w1 = (r2, w')
                        ∧ result = match r2 with
                                   | inr _ => (true, webp_path, None)
                                   | inl e => (false, webp_path, Some (exn_str e))
                                   end
             else result = (true, webp_path, None) ∧ w' = w1
         end).
Proof.
  unfold convert_single_webp, try_except, mbind, M_bind, mret, M_ret.
  destruct (conversion _ _ w) as [r1 w1] eqn:Hconv.
  destruct (conversion_inv _ _ _ _ _ Hconv) as
    [(e & -> & ->)|(b & img & encoded & Hb & Hd & Henc & Hsave)].
  { intros [= <- <-]. left. eauto. }
  intros Hrun. right. exists b, img, encoded, r1, w1. split_and!; [done..|].
  destruct r1 as [e|[]]; [by simplify_eq|].
  destruct delete_original.
  - destruct (os_remove webp_path w1) as [[e|[]] w2] eqn:Hrm; simplify_eq; eauto.
  - by simplify_eq.
Qed.

End TaskFacts.

Section TaskRuns.
Context `{Pillow}.

(** The observable side of the runs of [convert_single_webp]: the calls
    made, and the files afterwards. *)
Lemma task_run webp_path output_format delete_original w result w' :
  convert_single_webp (webp_path, output_format, delete_original) w = (inr result, w') ->
  let out := out_path webp_path output_format in
  (result.1.1 = false ∧ calls_between w w' [CallOpen webp_path] ∧ files w' = files w)
  ∨ (∃ b img encoded removal,
       files w !! webp_path = Some b ∧ decode b = inr img
       ∧ encoder_call output_format img encoded
       ∧ calls_between w w'
           (CallOpen webp_path :: CallSave out (out_format output_format) encoded :: removal)
       ∧ (removal = [] ∨ delete_original = true ∧ removal = [CallRemove webp_path])
       ∧ (∀ q, q ≠ out -> q ≠ webp_path -> files w' !! q = files w !! q)
       ∧ (result.1.1 = true ->
          ∃ bytes, encoded = inr bytes
            ∧ removal = (if delete_original then [CallRemove webp_path] else [])
            ∧ files w' = if delete_original
                         then delete webp_path (<[out := bytes]> (files w))
                         else <[out := bytes]> (files w))
       ∧ (result.1.1 = false -> out ≠ webp_path ->
          files w' !! webp_path = files w !! webp_path)).
Proof.
  intros Hrun out.
  destruct (convert_single_webp_inv _ _ _ _ _ _ Hrun) as
    [(e & -> & ->)|(b & img & encoded & r1 & w1 & Hb & Hd & Henc & Hsave & Hrest)].
  { left. by unfold calls_between. }
  right. exists b, img, encoded.
  apply save_inv in Hsave as (Hcalls1 & _ & Hother1 & _ & Hok1).
  unfold calls_between in *. cbn in Hcalls1, Hother1, Hok1.
  destruct r1 as [e|[]].
  { destruct Hrest as [-> ->]. exists []. split_and!; try done; eauto.
    by rewrite Hcalls1, <-app_assoc. }
  destruct Hok1 as (bytes & -> & Hfiles1).
  destruct delete_original.
  - destruct Hrest as (r2 & Hrm & ->).
    apply os_remove_inv in Hrm as [Hcalls2 Hrm]. unfold calls_between in Hcalls2.
    exists [CallRemove webp_path]. split_and!; try done; eauto.
    + by rewrite Hcalls2, Hcalls1, <-!app_assoc.
    + intros q Hq1 Hq2. destruct r2 as [e|[]].
      * rewrite Hrm. by apply Hother1.
      * destruct Hrm as [_ ->]. rewrite lookup_delete_ne by done. by apply Hother1.
    + destruct r2 as [e|[]]; [done|]. intros _. destruct Hrm as [_ ->].
      exists bytes. by rewrite Hfiles1.
    + destruct r2 as [e|[]]; [|done]. intros _ Hne. rewrite Hrm. by apply Hother1.
  - destruct Hrest as [-> ->]. exists []. split_and!; try done; eauto.
    by rewrite Hcalls1, <-app_assoc.
Qed.

End TaskRuns.

Lemma calls_between_inj w w' l1 l2 :
  calls_between w w' l1 -> calls_between w w' l2 -> l1 = l2.
Proof. unfold calls_between. intros -> Heq. by apply app_inv_head in Heq. Qed.

Section TaskSaves.
Context `{Pillow}.

(** A task saves at most once: nothing, or the encoder call of its branch
    at the output path. *)
Lemma task_saves webp_path output_format delete_original w result w' calls :
  convert_single_webp (webp_path, output_format, delete_original) w = (inr result, w') ->
  calls_between w w' calls ->
  (List.filter is_save calls = [] ∧ result.1.1 = false)
  ∨ (∃ b img encoded,
       files w !! webp_path = Some b ∧ decode b = inr img
       ∧ encoder_call output_format img encoded
       ∧ List.filter is_save calls
         = [CallSave (out_path webp_path output_format) (out_format output_format) encoded]
       ∧ (result.1.1 = true -> ∃ bytes, encoded = inr bytes)).
Proof.
  intros Hrun Hcalls.
  destruct (task_run _ _ _ _ _ _ Hrun) as
    [(Hres & Hc & _)
    |(b & img & encoded & removal & Hb & Hd & Henc & Hc & Hrem & _ & Hok & _)];
    rewrite (calls_between_inj _ _ _ _ Hcalls Hc).
  { by left. }
  right. exists b, img, encoded. split_and!; [done..| |].
  - by destruct Hrem as [->|[_ ->]].
  - intros (bytes & -> & _)%Hok. eauto.
Qed.

Lemma task_save_elem webp_path output_format delete_original w result w' calls p f encoded :
  convert_single_webp (webp_path, output_format, delete_original) w = (inr result, w') ->
  calls_between w w' calls ->
  CallSave p f encoded ∈ calls ->
  p = out_path webp_path output_format ∧ f = out_format output_format
  ∧ ∃ b img, files w !! webp_path = Some b ∧ decode b = inr img
             ∧ encoder_call output_format img encoded.
Proof.
  intros Hrun Hcalls Hin.
  assert (CallSave p f encoded ∈ List.filter is_save calls) as Hin'.
  { apply list_elem_of_In, filter_In. split; [by apply list_elem_of_In|done]. }
  destruct (task_saves _ _ _ _ _ _ _ Hrun Hcalls) as
    [[Hnil _]|(b & img & encoded' & Hb & Hd & Henc & Hone & _)].
  { rewrite Hnil in Hin'. by apply elem_of_nil in Hin'. }
  rewrite Hone in Hin'. apply list_elem_of_singleton in Hin' as [= -> -> ->].
  split_and!; [done..|]. by exists b, img.
Qed.

End TaskSaves.

(** [im.save] and [os.remove] make and remove no directory. *)
Lemma save_directories path format encoded w r w' :
  save path format encoded w = (r, w') -> directories w' = directories w.
Proof.
  unfold save. cbn.
  destruct (decide (path ∈ directories w)); [by intros [= <- <-]|].
  destruct (decide (path ∈ unwritable w)); [by intros [= <- <-]|].
  destruct encoded as [e|bytes]; intros [= <- <-]; [|done].
  by destruct (files w !! path).
Qed.

Lemma os_remove_directories path w r w' :
  os_remove path w = (r, w') -> directories w' = directories w.
Proof.
  unfold os_remove. cbn.
  destruct (decide (path ∈ undeletable w)); [by intros [= <- <-]|].
  destruct (decide (path ∈ directories w)); [by intros [= <- <-]|].
  destruct (files w !! path); by intros [= <- <-].
Qed.

Section SourceFacts.
Context `{Pillow}.

(** [Image.open] logs its call and changes nothing else. *)
Lemma Image_open_world path w : (Image_open path w).2 = log (CallOpen path) w.
Proof.
  unfold Image_open. cbn. destruct (decide _); [done|]. by destruct (files w !! path).
Qed.

(** [Image.open] raises on a directory, on a path that names nothing and
    on a file that does not decode. *)
Lemma Image_open_directory path w :
  path ∈ directories w -> (Image_open path w).1 = inl (IsADirectoryError path).
Proof. intros Hdir. unfold Image_open. cbn. by rewrite decide_True. Qed.

Lemma Image_open_missing path w :
  path ∉ directories w -> files w !! path = None ->
  (Image_open path w).1 = inl (FileNotFoundError path).
Proof. intros Hdir Hnone. unfold Image_open. cbn. by rewrite decide_False, Hnone. Qed.

Lemma Image_open_undecoded path w b e :
  path ∉ directories w -> files w !! path = Some b -> decode b = inl e ->
  (Image_open path w).1 = inl e.
Proof. intros Hdir Hb Hd. unfold Image_open. cbn. by rewrite decide_False, Hb. Qed.

(** When [Image.open] raises, the task ends there: the exception becomes
    the message of a failure, and the open is the only call made. *)
Lemma task_source_unopened webp_path output_format delete_original w e :
  (Image_open webp_path w).1 = inl e ->
  convert_single_webp (webp_path, output_format, delete_original) w
  = (inr (false, webp_path, Some (exn_str e)), log (CallOpen webp_path) w).
Proof.
  intros He. pose proof (Image_open_world webp_path w) as Hw.
  unfold convert_single_webp, try_except, conversion.
  destruct (posixpath.split webp_path) as [dirname filename].
  destruct (posixpath.splitext filename) as [base_name ext].
  case_bool_decide; unfold convert_jpeg, convert_gif, mbind, M_bind;
    destruct (Image_open webp_path w) as [[e'|img] w1]; cbn in *; by simplify_eq.
Qed.

(** A source that is a directory, names nothing or does not decode makes
    [Image.open] raise. *)
Lemma unusable_source_raises webp_path w :
  files w !! webp_path = None ∨ webp_path ∈ directories w
  ∨ (∃ b e, files w !! webp_path = Some b ∧ decode b = inl e) ->
  ∃ e, (Image_open webp_path w).1 = inl e.
Proof.
  intros Hsrc. destruct (decide (webp_path ∈ directories w)) as [Hdir|Hdir].
  { eauto using Image_open_directory. }
  destruct Hsrc as [Hnone|[?|(b & e & Hb & Hd)]]; [|done|].
  - eauto using Image_open_missing.
  - eauto using Image_open_undecoded.
Qed.

(** A task makes and removes no directory, and the source of a task that
    reports success is not one. *)
Lemma task_directories webp_path output_format delete_original w result w' :
  convert_single_webp (webp_path, output_format, delete_original) w = (inr result, w') ->
  directories w' = directories w
  ∧ (result.1.1 = true -> webp_path ∉ directories w).
Proof.
  intros Hrun. split.
  - destruct (convert_single_webp_inv _ _ _ _ _ _ Hrun) as
      [(e & -> & ->)|(b & img & encoded & r1 & w1 & _ & _ & _ & Hsave & Hrest)]; [done|].
    apply save_directories in Hsave. cbn in Hsave.
    destruct r1 as [e|[]]; [destruct Hrest as [_ ->]; done|].
    destruct delete_original; [|destruct Hrest as [_ ->]; done].
    destruct Hrest as (r2 & Hrm & _). apply os_remove_directories in Hrm. congruence.
  - intros Hres Hdir.
    rewrite (task_source_unopened _ _ _ _ _ (Image_open_directory _ _ Hdir)) in Hrun.
    by simplify_eq.
Qed.

(** A task that reports success saved exactly once, to its output path,
    and the file there holds the encoder's bytes afterwards, unless it
    was the source and has been removed. *)
Lemma task_success_output webp_path output_format delete_original w result w' calls :
  convert_single_webp (webp_path, output_format, delete_original) w = (inr result, w') ->
  calls_between w w' calls ->
  result.1.1 = true ->
  let out := out_path webp_path output_format in
  ∃ bytes,
    List.filter is_save calls = [CallSave out (out_format output_format) (inr bytes)]
    ∧ (delete_original = false ∨ out ≠ webp_path -> files w' !! out = Some bytes).
Proof.
  intros Hrun Hcalls Hres out.
  destruct (task_run _ _ _ _ _ _ Hrun) as
    [(Hno & _)|(b & img & encoded & removal & _ & _ & _ & Hc & _ & _ & Hok & _)];
    [congruence|].
  destruct (Hok Hres) as (bytes & -> & -> & Hfiles). exists bytes.
  rewrite (calls_between_inj _ _ _ _ Hcalls Hc). split.
  - by destruct delete_original.
  - intros Hq. rewrite Hfiles. destruct delete_original.
    + destruct Hq as [?|Hne]; [done|].
      rewrite lookup_delete_ne by done. apply lookup_insert_eq.
    + apply lookup_insert_eq.
Qed.

End SourceFacts.

(** ** The claims about the converter *)

Section ConverterClaims.
Context `{Pillow}.

(** C2.  When the encode went through (the same task without deletion
    reports success, leaving the machine in [w1]) and removing the
    original then fails with [e], the exception is caught: the task with
    deletion returns the result [(False, webp_path, str(e))] and does not
    raise. *)
Theorem delete_error_is_reported webp_path output_format w w1 e w2 :
  convert_single_webp (webp_path, output_format, false) w
    = (inr (true, webp_path, None), w1) ->
  os_remove webp_path w1 = (inl e, w2) ->
  convert_single_webp (webp_path, output_format, true) w
    = (inr (false, webp_path, Some (exn_str e)), w2).
Proof.
  intros Hok Hrm.
  apply convert_single_webp_success in Hok as (w1' & Hconv & [= ->]); [|done].
  unfold convert_single_webp, try_except, mbind, M_bind.
  by rewrite Hconv, Hrm.
Qed.

End ConverterClaims.

Section GifClaims.
Context `{Pillow}.

(** Pictures mapped onto a palette carry that palette. *)
Lemma remapped_palette paletted_first fr f_p :
  remapped paletted_first fr f_p -> palette_of f_p = palette_of paletted_first.
Proof. intros (f_rgb & _ & Hq). by apply quantize_palette in Hq. Qed.

(** C4.  Whenever a task for a format other than ["JPEG"] comes to save
    its output, there is one palette, the median-cut quantisation of the
    first frame in RGB to at most 256 colours; every frame of the
    sequence, the first included, was converted to RGB and quantised with
    [palette=] that palette, never on its own; and every picture handed to
    the encoder carries this palette. *)
Theorem gif_frames_share_one_palette
    webp_path output_format delete_original w result w' calls p f encoded :
  output_format ≠ str "JPEG" ->
  convert_single_webp (webp_path, output_format, delete_original) w = (inr result, w') ->
  calls_between w w' calls ->
  CallSave p f encoded ∈ calls ->
  ∃ b img paletted_first frames_rgb first options,
    files w !! webp_path = Some b ∧ decode b = inr img
    ∧ canonical_palette img paletted_first
    ∧ len (palette_of paletted_first) <= 256
    ∧ Forall2 (remapped paletted_first) (Iterator img) frames_rgb
    ∧ encoded = encode_GIF first options
    ∧ Forall (fun im => palette_of im = palette_of paletted_first)
        (first :: append_images options).
Proof.
  intros Hfmt Hrun Hcalls Hin.
  destruct (task_save_elem _ _ _ _ _ _ _ _ _ _ Hrun Hcalls Hin) as
    (_ & _ & b & img & Hb & Hd & Henc).
  unfold encoder_call in Henc. rewrite bool_decide_eq_false_2 in Henc by done.
  destruct Henc as (paletted_first & frames_rgb & Hpal & Hall & Henc).
  assert (Forall (fun im => palette_of im = palette_of paletted_first) frames_rgb) as Hsame.
  { clear Henc. induction Hall; constructor; eauto using remapped_palette. }
  exists b, img, paletted_first, frames_rgb.
  assert (len (palette_of paletted_first) <= 256) as Hbound.
  { destruct Hpal as (first_rgb & _ & Hq). by apply quantize_colors in Hq. }
  destruct frames_rgb as [|frame0 [|frame1 rest]]; [done| |].
  - exists paletted_first, gif_defaults. split_and!; try done. by constructor.
  - eexists frame0, _. split_and!; try done.
Qed.

(** C5, as amended.  Every save of a task for a format other than
    ["JPEG"] goes to the output path and is the GIF encoder's, on a source
    that decoded to some [K >= 1] frames: for [K = 1], of the quantised
    first frame with no further argument (a static image); for [K > 1], of
    the [K] mapped frames in decoded order, the first as the image and the
    others as [append_images], with [save_all=True], [loop=0],
    [disposal=2], [optimize=False] and the durations of the frames, 100
    for a frame whose [info] has none.  A task that reports success made
    exactly one such save, and the output file then holds exactly the
    bytes this encoder call produced (unless the output path is the source
    and was removed).  How many frames the encoder puts into these bytes
    is not the converter's to decide. *)
Theorem gif_static_or_animated
    webp_path output_format delete_original w result w' calls :
  output_format ≠ str "JPEG" ->
  convert_single_webp (webp_path, output_format, delete_original) w = (inr result, w') ->
  calls_between w w' calls ->
  let out := out_path webp_path output_format in
  (∀ p f encoded,
     CallSave p f encoded ∈ calls ->
     p = out ∧ f = str "GIF"
     ∧ ∃ b img paletted_first frames_rgb,
         files w !! webp_path = Some b ∧ decode b = inr img
         ∧ canonical_palette img paletted_first
         ∧ Forall2 (remapped paletted_first) (Iterator img) frames_rgb
         ∧ length frames_rgb = length (Iterator img)
         ∧ (length (Iterator img) = 1%nat ->
            encoded = encode_GIF paletted_first gif_defaults)
         ∧ ((1 < length (Iterator img))%nat ->
            ∃ frame0 rest,
              frames_rgb = frame0 :: rest
              ∧ encoded =
                  encode_GIF frame0
                    {| save_all := true; append_images := rest; loop := Some 0;
                       duration :=
                         Some (map (fun fr => default 100 (info fr !! str "duration"))
                                 (Iterator img));
                       disposal := Some 2; gif_optimize := Some false |}))
  ∧ (result.1.1 = true ->
     ∃ bytes,
       List.filter is_save calls = [CallSave out (str "GIF") (inr bytes)]
       ∧ (delete_original = false ∨ out ≠ webp_path -> files w' !! out = Some bytes)).
Proof.
  intros Hfmt Hrun Hcalls out. split.
  - intros p f encoded Hin.
    destruct (task_save_elem _ _ _ _ _ _ _ _ _ _ Hrun Hcalls Hin) as
      (-> & -> & b & img & Hb & Hd & Henc).
    unfold encoder_call in Henc. unfold out_format.
    rewrite bool_decide_eq_false_2 in Henc |- * by done.
    split; [done|]. split; [done|].
    destruct Henc as (paletted_first & frames_rgb & Hpal & Hall & Henc).
    exists b, img, paletted_first, frames_rgb.
    pose proof (Forall2_length _ _ _ Hall) as Hlen.
    split_and!; try done.
    + intros HK. rewrite HK in Hlen.
      by destruct frames_rgb as [|frame0 [|frame1 rest]].
    + intros HK.
      destruct frames_rgb as [|frame0 [|frame1 rest]]; [done|cbn in Hlen; lia|].
      by exists frame0, (frame1 :: rest).
  - intros Hres.
    destruct (task_success_output _ _ _ _ _ _ _ Hrun Hcalls Hres) as (bytes & Hone & Hfile).
    exists bytes. unfold out_format in Hone.
    by rewrite bool_decide_eq_false_2 in Hone by done.
Qed.

End GifClaims.

Section OutputClaims.
Context `{Pillow}.

(** C6.  A task for the format ["JPEG"] saves at most once, and exactly
    once when it reports success: there is no second attempt.  The save
    it makes is the JPEG encoder's, run on the first frame of the opened
    file converted to RGB, with [quality=100], [subsampling=0] and
    [optimize=True]; no other frame of the file enters the encoding. *)
Theorem jpeg_encodes_first_frame_once webp_path delete_original w result w' calls :
  convert_single_webp (webp_path, str "JPEG", delete_original) w = (inr result, w') ->
  calls_between w w' calls ->
  (length (List.filter is_save calls) <= 1)%nat
  ∧ (result.1.1 = true -> length (List.filter is_save calls) = 1%nat)
  ∧ (∀ p f encoded,
       CallSave p f encoded ∈ calls ->
       f = str "JPEG"
       ∧ ∃ b img img_rgb,
           files w !! webp_path = Some b ∧ decode b = inr img
           ∧ convert (pixels (first_frame img)) (str "RGB") = inr img_rgb
           ∧ encoded =
               encode_JPEG img_rgb
                 {| quality := 100; subsampling := 0; jpeg_optimize := true |}).
Proof.
  intros Hrun Hcalls. split_and!.
  - destruct (task_saves _ _ _ _ _ _ _ Hrun Hcalls) as
      [[-> _]|(b & img & encoded & _ & _ & _ & -> & _)]; cbn; lia.
  - destruct (task_saves _ _ _ _ _ _ _ Hrun Hcalls) as
      [[_ ->]|(b & img & encoded & _ & _ & _ & -> & _)]; done.
  - intros p f encoded Hin.
    destruct (task_save_elem _ _ _ _ _ _ _ _ _ _ Hrun Hcalls Hin) as
      (_ & -> & b & img & Hb & Hd & Henc).
    unfold encoder_call in Henc. unfold out_format.
    rewrite bool_decide_eq_true_2 in Henc |- * by done.
    split; [done|]. destruct Henc as (img_rgb & Hc & ->). by exists b, img, img_rgb.
Qed.

(** C7, as amended.  A task saves at most once and only to the path made
    of the directory of the source, its base name and the extension of the
    format; for a source [dir/stem.ext] that is [dir/stem.jpg] or
    [dir/stem.gif], beside the source.  It touches no file but that one and
    the source.  A task that reports success saved exactly once there, and
    the file holds the encoder's bytes afterwards unless it is the source
    itself.  A task that ends before the encode makes no save: it reports
    failure and writes nothing, every file is as it was; this is so
    whenever the source names nothing, is a directory or does not
    decode, and the open is then the only call made. *)
Theorem output_written_beside_source
    webp_path output_format delete_original w result w' calls :
  convert_single_webp (webp_path, output_format, delete_original) w = (inr result, w') ->
  calls_between w w' calls ->
  let out :=
    posixpath.join (posixpath.split webp_path).1
      ((posixpath.splitext (posixpath.split webp_path).2).1
         ++ (if bool_decide (output_format = str "JPEG") then str ".jpg" else str ".gif")) in
  (length (List.filter is_save calls) <= 1)%nat
  ∧ (∀ p f encoded, CallSave p f encoded ∈ calls -> p = out)
  ∧ (∀ q, q ≠ out -> q ≠ webp_path -> files w' !! q = files w !! q)
  ∧ (result.1.1 = true ->
     ∃ bytes,
       List.filter is_save calls = [CallSave out (out_format output_format) (inr bytes)]
       ∧ (out ≠ webp_path -> files w' !! out = Some bytes))
  ∧ (∀ dir c stem e x,
       webp_path = dir ++ [c] ++ str "/" ++ stem ++ str "." ++ e ->
       c ≠ "/"%char -> "/"%char ∉ stem -> "/"%char ∉ e -> "."%char ∉ e ->
       x ∈ stem -> x ≠ "."%char ->
       out = dir ++ [c] ++ str "/" ++ stem
             ++ (if bool_decide (output_format = str "JPEG") then str ".jpg" else str ".gif"))
  ∧ (List.filter is_save calls = [] -> result.1.1 = false ∧ files w' = files w)
  ∧ (files w !! webp_path = None ∨ webp_path ∈ directories w
     ∨ (∃ b e, files w !! webp_path = Some b ∧ decode b = inl e) ->
     calls = [CallOpen webp_path] ∧ result.1.1 = false ∧ files w' = files w).
Proof.
  intros Hrun Hcalls out.
  assert (out = out_path webp_path output_format) as ->.
  { unfold out, out_path, out_ext.
    destruct (posixpath.split webp_path) as [dirname filename]; cbn.
    by destruct (posixpath.splitext filename). }
  split_and!; [| | | |intros dir c stem e x ->; by apply out_path_replaces_extension| |].
  - destruct (task_saves _ _ _ _ _ _ _ Hrun Hcalls) as
      [[-> _]|(b & img & encoded & _ & _ & _ & -> & _)]; cbn; lia.
  - intros p f encoded Hin.
    by destruct (task_save_elem _ _ _ _ _ _ _ _ _ _ Hrun Hcalls Hin) as [-> _].
  - destruct (task_run _ _ _ _ _ _ Hrun) as
      [(_ & _ & ->)|(b & img & encoded & removal & _ & _ & _ & _ & _ & Hother & _)];
      [done|exact Hother].
  - intros Hres.
    destruct (task_run _ _ _ _ _ _ Hrun) as
      [(Hno & _)|(b & img & encoded & removal & _ & _ & _ & Hc & _ & _ & Hok & _)];
      [congruence|].
    destruct (Hok Hres) as (bytes & -> & -> & Hfiles). exists bytes.
    rewrite (calls_between_inj _ _ _ _ Hcalls Hc). split.
    + by destruct delete_original.
    + intros Hne. rewrite Hfiles. destruct delete_original.
      * rewrite lookup_delete_ne by done. apply lookup_insert_eq.
      * apply lookup_insert_eq.
  - intros Hnone.
    destruct (task_run _ _ _ _ _ _ Hrun) as
      [(Hres & _ & Hfiles)|(b & img & encoded & removal & _ & _ & _ & Hc & _)]; [done|].
    rewrite (calls_between_inj _ _ _ _ Hcalls Hc) in Hnone. done.
  - intros [e He]%unusable_source_raises.
    rewrite (task_source_unopened _ _ _ _ _ He) in Hrun.
    injection Hrun as <- <-. split_and!; [|done..].
    apply (calls_between_inj _ _ _ _ Hcalls). by unfold calls_between.
Qed.

(** C10.  A task whose format is any string other than ["JPEG"] runs as
    the task for ["GIF"] does; every save it makes is a GIF save of the
    GIF branch's encoder call to a path ending in [.gif]; when it reports
    success it made one, and the file at that path then holds the bytes
    the GIF encoder produced (unless the path is the source and was
    removed).  A save with the JPEG encoder's call is only made for the
    format ["JPEG"] itself. *)
Theorem only_JPEG_selects_the_jpeg_encoder
    webp_path output_format delete_original w result w' calls :
  convert_single_webp (webp_path, output_format, delete_original) w = (inr result, w') ->
  calls_between w w' calls ->
  (output_format ≠ str "JPEG" ->
   convert_single_webp (webp_path, output_format, delete_original) w
   = convert_single_webp (webp_path, str "GIF", delete_original) w)
  ∧ (∀ p f encoded,
       CallSave p f encoded ∈ calls ->
       (output_format = str "JPEG" ∧ f = str "JPEG" ∧ str ".jpg" `suffix_of` p
        ∧ ∃ img, jpeg_call img encoded)
       ∨ (output_format ≠ str "JPEG" ∧ f = str "GIF" ∧ str ".gif" `suffix_of` p
          ∧ ∃ img, gif_call img encoded))
  ∧ (output_format ≠ str "JPEG" -> result.1.1 = true ->
     ∃ p bytes, CallSave p (str "GIF") (inr bytes) ∈ calls ∧ str ".gif" `suffix_of` p
       ∧ (delete_original = false ∨ p ≠ webp_path -> files w' !! p = Some bytes)).
Proof.
  intros Hrun Hcalls. split_and!.
  - intros Hfmt. unfold convert_single_webp, conversion.
    by rewrite !bool_decide_eq_false_2.
  - intros p f encoded Hin.
    destruct (task_save_elem _ _ _ _ _ _ _ _ _ _ Hrun Hcalls Hin) as
      (-> & -> & b & img & _ & _ & Henc).
    pose proof (out_path_suffix webp_path output_format) as Hsuf.
    unfold encoder_call in Henc. unfold out_format, out_ext in *.
    case_bool_decide; [left|right]; split_and!; eauto.
  - intros Hfmt Hres.
    destruct (task_success_output _ _ _ _ _ _ _ Hrun Hcalls Hres) as (bytes & Hone & Hfile).
    exists (out_path webp_path output_format), bytes. split_and!; [| |done].
    + assert (CallSave (out_path webp_path output_format) (str "GIF") (inr bytes)
              ∈ List.filter is_save calls) as Hin.
      { rewrite Hone. unfold out_format. rewrite bool_decide_eq_false_2 by done.
        apply list_elem_of_singleton. done. }
      apply list_elem_of_In, filter_In in Hin as [Hin _]. by apply list_elem_of_In.
    + pose proof (out_path_suffix webp_path output_format) as Hsuf.
      unfold out_ext in Hsuf. by rewrite bool_decide_eq_false_2 in Hsuf.
Qed.

End OutputClaims.

Section SourceKept.
Context `{Pillow}.

(** A task that reports failure does not make its source disappear. *)
Lemma failed_task_keeps_source webp_path output_format delete_original w result w' :
  convert_single_webp (webp_path, output_format, delete_original) w = (inr result, w') ->
  result.1.1 = false ->
  is_Some (files w !! webp_path) -> is_Some (files w' !! webp_path).
Proof.
  intros Hrun Hres Hsrc.
  destruct (convert_single_webp_inv _ _ _ _ _ _ Hrun) as
    [(e & -> & ->)|(b & img & encoded & r1 & w1 & _ & _ & _ & Hsave & Hrest)]; [done|].
  apply save_inv in Hsave as (_ & _ & Hother & Hkeep & _). cbn in Hother, Hkeep.
  assert (is_Some (files w1 !! webp_path)) as Hsrc1.
  { destruct (decide (webp_path = out_path webp_path output_format)) as [Heq|Hne].
    - rewrite Heq. apply Hkeep. by rewrite <-Heq.
    - by rewrite Hother. }
  destruct r1 as [e|[]]; [by destruct Hrest as [_ ->]|].
  destruct delete_original; [|by destruct Hrest as [-> _]].
  destruct Hrest as (r2 & Hrm & ->). apply os_remove_inv in Hrm as [_ Hrm].
  destruct r2 as [e|[]]; [by rewrite Hrm|done].
Qed.

(** C3.  The source file is removed exactly when [delete_original] is set
    and the result reports success; and a task that reports failure, at
    whatever step, leaves the file of a source named [*.webp] as it was. *)
Theorem original_removed_iff_success webp_path output_format delete_original w result w' :
  convert_single_webp (webp_path, output_format, delete_original) w = (inr result, w') ->
  (removed webp_path w w' <-> delete_original = true ∧ result.1.1 = true)
  ∧ (PyStr.endswith (PyStr.lower webp_path) (str ".webp") = true ->
     result.1.1 = false -> files w' !! webp_path = files w !! webp_path).
Proof.
  intros Hrun. unfold removed. split.
  - destruct (result.1.1) eqn:Hres.
    + destruct (task_run _ _ _ _ _ _ Hrun) as
        [(Hno & _)|(b & img & encoded & removal & Hb & _ & _ & _ & _ & _ & Hok & _)];
        [congruence|].
      destruct (Hok Hres) as (bytes & _ & _ & Hfiles). rewrite Hfiles, Hb.
      destruct delete_original.
      * rewrite lookup_delete_eq. by split.
      * split; [|by intros [? _]]. intros [_ Hnone].
        destruct (decide (out_path webp_path output_format = webp_path)) as [Heq|Hne].
        -- by rewrite Heq, lookup_insert_eq in Hnone.
        -- by rewrite lookup_insert_ne, Hb in Hnone.
    + split; [|by intros [_ ?]]. intros [Hsrc Hnone].
      apply (failed_task_keeps_source _ _ _ _ _ _ Hrun Hres) in Hsrc.
      rewrite Hnone in Hsrc. by destruct Hsrc.
  - intros Hwebp Hres.
    pose proof (out_path_ne webp_path output_format Hwebp) as Hne.
    destruct (task_run _ _ _ _ _ _ Hrun) as
      [(_ & _ & ->)|(b & img & encoded & removal & _ & _ & _ & _ & _ & _ & _ & Hfail)];
      [done|by apply Hfail].
Qed.

End SourceKept.

(** ** The dispatcher *)

Lemma len_app {A} (l1 l2 : list A) : len (l1 ++ l2) = len l1 + len l2.
Proof. unfold len. rewrite length_app. lia. Qed.

Lemma progress_updates_app l1 l2 :
  progress_updates (l1 ++ l2) = progress_updates l1 + progress_updates l2.
Proof. unfold progress_updates. by rewrite List.filter_app, len_app. Qed.

Lemma done_messages_app l1 l2 :
  done_messages (l1 ++ l2) = done_messages l1 + done_messages l2.
Proof. unfold done_messages. by rewrite List.filter_app, len_app. Qed.

(** One callback: the counter goes up by one, the progress is published
    once, and the completion message is shown exactly when the counter
    reaches the total. *)
Lemma _on_task_done_spec result self :
  let self' := _on_task_done result self in
  webp_paths self' = webp_paths self
  ∧ mode self' = mode self
  ∧ output_format self' = output_format self
  ∧ delete_original self' = delete_original self
  ∧ total_files self' = total_files self
  ∧ completed_files self' = completed_files self + 1
  ∧ ∃ new, tk self' = tk self ++ new
           ∧ progress_updates new = 1
           ∧ done_messages new
             = if bool_decide (completed_files self + 1 = total_files self) then 1 else 0.
Proof.
  destruct result as [[success webp_path] err]. unfold _on_task_done. cbn.
  case_bool_decide; cbn; split_and!; try done.
  - eexists [_; _; _]. by rewrite <-!app_assoc.
  - eexists [_; _]. by rewrite <-!app_assoc.
Qed.

Lemma listbox_insert_all_fields l self :
  let self' := listbox_insert_all l self in
  webp_paths self' = webp_paths self ∧ mode self' = mode self
  ∧ total_files self' = total_files self.
Proof.
  unfold listbox_insert_all. revert self.
  induction l as [|p l IH]; intros self; cbn; [done|].
  destruct (IH (tk_do (ListboxInsert p) self)) as (-> & -> & ->). done.
Qed.

Lemma select_items_finish_inv self :
  (mode self = folder_mode ->
   Forall (fun p => PyStr.endswith (PyStr.lower p) (str ".webp") = true)
     (webp_paths self)) ->
  app_inv (select_items_finish self).
Proof.
  intros Hwebp. unfold select_items_finish, app_inv.
  destruct (0 <? _); cbn; by split.
Qed.

(** A name that [select_items] keeps in folder mode gives a path that ends
    in [.webp] once lowered. *)
Lemma listed_path_endswith folder_path f :
  PyStr.lower (posixpath.splitext f).2 = str ".webp" ->
  PyStr.endswith (PyStr.lower (posixpath.join folder_path f)) (str ".webp") = true.
Proof.
  intros Hext. apply endswith_true.
  etrans; [|apply lower_suffix, join_suffix].
  rewrite <-(splitext_app f) at 1. rewrite lower_app, Hext. by apply suffix_app_r.
Qed.

Lemma init_inv : app_inv init.
Proof. by split. Qed.

Lemma _on_mode_change_inv self : app_inv (_on_mode_change self).
Proof. unfold _on_mode_change, app_inv. by case_bool_decide. Qed.

Lemma select_items_inv answer self : app_inv self -> app_inv (select_items answer self).
Proof.
  intros Hinv. unfold select_items.
  case_bool_decide as Hmode.
  - destruct answer as [folder_path listing|file_paths]; [|done].
    case_bool_decide; [done|].
    destruct listing as [e|all_files].
    { destruct Hinv as [Htotal Hwebp]. by split. }
    apply select_items_finish_inv. intros _.
    match goal with
    | |- Forall _ (webp_paths (if ?c then _ else listbox_insert_all ?l ?s)) =>
        assert (webp_paths (if c then tk_do (ListboxInsert (str "(폴더에 .webp 파일이 없습니다)")) s
                            else listbox_insert_all l s) = l) as ->
    end.
    { case_bool_decide; [done|].
      by destruct (listbox_insert_all_fields
                     (map (posixpath.join folder_path)
                        (filter (fun f => PyStr.lower (posixpath.splitext f).2 = str ".webp")
                           all_files))
                     (tk_do ListboxDelete
                        (set_webp_paths
                           (map (posixpath.join folder_path)
                              (filter (fun f => PyStr.lower (posixpath.splitext f).2 = str ".webp")
                                 all_files))
                           (tk_do (LblSelectedFolder folder_path) self)))) as (-> & _). }
    apply Forall_forall. intros p (f & <- & Hf)%list_elem_of_In%in_map_iff.
    apply list_elem_of_In, list_elem_of_filter in Hf as [Hext _].
    by apply listed_path_endswith.
  - destruct answer as [folder_path listing|file_paths]; [done|].
    case_bool_decide; [done|].
    apply select_items_finish_inv.
    match goal with
    | |- mode (listbox_insert_all ?l ?s) = _ -> _ =>
        destruct (listbox_insert_all_fields l s) as (_ & -> & _)
    end.
    done.
Qed.

(** A reachable selection passes the second guard of [convert_all]. *)
Lemma no_webp_in_folder_false self :
  app_inv self -> webp_paths self ≠ [] -> no_webp_in_folder self = false.
Proof.
  intros [_ Hwebp] Hne. unfold no_webp_in_folder.
  case_bool_decide as Hmode; [|done]. cbn.
  destruct (Hwebp Hmode) as [|p l Hp _]; [done|]. cbn. by rewrite Hp.
Qed.

Section DispatcherFacts.
Context `{Pillow}.
Variable cpu_count : nat.

Lemma pool_step_inv self0 p p' :
  pool_step cpu_count p p' ->
  batch_inv self0 (queue p) (running p) (pool_app p) ->
  batch_inv self0 (queue p') (running p') (pool_app p').
Proof.
  intros Hstep (Hpaths & Hmode & Hfmt & Hdel & Htotal & Hcount & new & Htk & Hprog & Hdone).
  destruct Hstep as
    [t q r self w Hidle
    |before t after q self w result w' Hrun
    |before t after q self w e w' Hrun]; cbn [queue running pool_app] in *.
  - split_and!; try done.
    + rewrite len_app. unfold len in *. cbn. cbn in Hcount. lia.
    + by exists new.
  - unfold batch_inv.
    destruct (_on_task_done_spec result self) as
      (-> & -> & -> & -> & -> & -> & new1 & -> & Hprog1 & Hdone1).
    rewrite len_app in Hcount. unfold len in Hcount. cbn in Hcount.
    split_and!; try done.
    + rewrite len_app. unfold len. lia.
    + exists (new ++ new1). rewrite Htk, <-app_assoc. split_and!; [done| |].
      * rewrite progress_updates_app. lia.
      * rewrite done_messages_app, Hdone, Hdone1, Htotal.
        repeat case_bool_decide; lia.
  - destruct (convert_single_webp_returns t w) as (result & w'' & Hret). congruence.
Qed.

Lemma pool_run_inv self0 p p' :
  rtc (pool_step cpu_count) p p' ->
  batch_inv self0 (queue p) (running p) (pool_app p) ->
  batch_inv self0 (queue p') (running p') (pool_app p').
Proof. induction 1; eauto using pool_step_inv. Qed.

Lemma pool_submitted_inv self w :
  app_inv self -> webp_paths self ≠ [] ->
  batch_inv self (queue (pool_submitted self w)) (running (pool_submitted self w))
    (pool_app (pool_submitted self w)).
Proof.
  intros [Htotal _] Hne. unfold batch_inv, pool_submitted, submitted. cbn.
  split_and!; try done.
  - unfold len. rewrite length_map. cbn. unfold len in Htotal. lia.
  - exists []. rewrite app_nil_r. split_and!; try done.
    rewrite bool_decide_eq_false_2; [done|].
    rewrite Htotal. destruct (webp_paths self); [done|]. unfold len. cbn. lia.
Qed.

(** What a click on the convert button leaves behind. *)
Lemma convert_all_spec self w self' w' :
  app_inv self ->
  convert_all cpu_count (self, w) (self', w') ->
  webp_paths self' = webp_paths self ∧ mode self' = mode self
  ∧ total_files self' = total_files self
  ∧ ∃ new, tk self' = tk self ++ new
     ∧ if bool_decide (webp_paths self = [])
       then new = [WarnSelectFirst]
       else progress_updates new = len (webp_paths self)
            ∧ done_messages new = 1
            ∧ completed_files self' = len (webp_paths self).
Proof.
  intros Hinv Hall.
  inversion Hall as [? ? Hnil|? ? Hne Hguard|? ? p Hne Hguard Hrun [Hq Hr]]; subst.
  - split_and!; try done. exists [WarnSelectFirst]. by rewrite bool_decide_eq_true_2.
  - by rewrite no_webp_in_folder_false in Hguard.
  - apply (pool_run_inv self) in Hrun; [|by apply pool_submitted_inv].
    destruct Hrun as (Hpaths & Hmode & _ & _ & Htotal & Hcount & new & Htk & Hprog & Hdone).
    rewrite Hq, Hr in Hcount. unfold len in Hcount at 1 2. cbn in Hcount.
    destruct Hinv as [Hlen _].
    split_and!; try done. exists new. split; [done|].
    rewrite bool_decide_eq_false_2 by done.
    rewrite bool_decide_eq_true_2 in Hdone by lia.
    split_and!; [lia|done|lia].
Qed.

Lemma reachable_inv self : reachable cpu_count self -> app_inv self.
Proof.
  induction 1 as [|self v _ IH _|self answer _ IH|self v _ IH _|self b _ IH
                 |self w self' w' _ IH Hall].
  - apply init_inv.
  - apply _on_mode_change_inv.
  - by apply select_items_inv.
  - done.
  - done.
  - destruct (convert_all_spec _ _ _ _ IH Hall) as (Hp & Hm & Ht & _).
    destruct IH as [Htotal Hwebp]. split; rewrite ?Hp, ?Hm, ?Ht; done.
Qed.

(** The run in submission order is a run of the pool, as soon as there is
    a worker. *)
Lemma run_in_order_run tasks self w :
  (1 <= cpu_count)%nat ->
  rtc (pool_step cpu_count) (Pool tasks [] self w)
    (Pool [] [] (run_in_order tasks self w).1 (run_in_order tasks self w).2).
Proof.
  intros Hcpu. revert self w.
  induction tasks as [|t tasks IH]; intros self w; cbn; [done|].
  eapply rtc_l; [apply step_take; cbn; lia|]. cbn.
  destruct (convert_single_webp t w) as [[e|result] w1] eqn:Hrun.
  - eapply rtc_l; [|apply IH]. by apply (step_raised _ [] t [] tasks self w e w1).
  - eapply rtc_l; [|apply IH]. by apply (step_done _ [] t [] tasks self w result w1).
Qed.

Lemma convert_all_in_order_run self w :
  (1 <= cpu_count)%nat -> app_inv self ->
  convert_all cpu_count (self, w) (convert_all_in_order self w).
Proof.
  intros Hcpu Hinv. unfold convert_all_in_order.
  case_bool_decide as Hnil; [by constructor|].
  rewrite no_webp_in_folder_false by done.
  pose proof (run_in_order_run (submitted self) (set_completed_files 0 self) w Hcpu) as Hrun.
  destruct (run_in_order _ _ _) as [self' w'].
  by apply (convert_all_pool _ self w (Pool [] [] self' w'));
    [|apply no_webp_in_folder_false|..].
Qed.

End DispatcherFacts.

(** C1, as amended.  From any state the user can reach, with at least one
    worker, a click on the convert button returns.  When [N >= 1] paths are
    selected, it delivers exactly [N] progress updates, one per completed
    task, ends with [completed_files = total_files = N] and shows the
    completion message exactly once, in whatever order the tasks complete.
    When nothing is selected it only shows a warning: no task runs, no
    progress is published and no completion message is shown. *)
Theorem batch_reports_every_task `{Pillow} cpu_count self w :
  (1 <= cpu_count)%nat ->
  reachable cpu_count self ->
  (∃ self' w', convert_all cpu_count (self, w) (self', w'))
  ∧ ∀ self' w',
      convert_all cpu_count (self, w) (self', w') ->
      ∃ new,
        tk self' = tk self ++ new
        ∧ (webp_paths self ≠ [] ->
           progress_updates new = len (webp_paths self)
           ∧ completed_files self' = len (webp_paths self)
           ∧ total_files self' = len (webp_paths self)
           ∧ done_messages new = 1)
        ∧ (webp_paths self = [] ->
           new = [WarnSelectFirst] ∧ w' = w
           ∧ progress_updates new = 0 ∧ done_messages new = 0).
Proof.
  intros Hcpu Hinv%reachable_inv. split.
  { pose proof (convert_all_in_order_run cpu_count self w Hcpu Hinv) as Hrun.
    destruct (convert_all_in_order self w) as [self' w']. eauto. }
  intros self' w' Hall.
  destruct (convert_all_spec _ _ _ _ _ Hinv Hall) as (_ & _ & Htotal & new & Htk & Hnew).
  exists new. split; [done|]. destruct Hinv as [Hlen _].
  case_bool_decide as Hnil; (split; [|]); intros Hsel; try done.
  - subst new. split_and!; try done.
    inversion Hall; subst; first [done | congruence].
  - destruct Hnew as (? & ? & ?). split_and!; congruence.
Qed.

(** C1 as stated fails for the empty batch: a click with nothing selected
    shows the warning and returns; no completion message is published,
    whereas the claim asks for exactly one. *)
Lemma empty_batch_publishes_no_completion :
  webp_paths init = []
  ∧ reachable (H := Toy.pillow) 4 init
  ∧ (∃ self' w', convert_all (H := Toy.pillow) 4 (init, Toy.machine) (self', w'))
  ∧ (∀ self' w',
       convert_all (H := Toy.pillow) 4 (init, Toy.machine) (self', w') ->
       self' = tk_do WarnSelectFirst init
       ∧ done_messages (tk self') = 0 ∧ done_messages (tk self') ≠ 1).
Proof.
  split_and!; [done|constructor| |].
  - exists (tk_do WarnSelectFirst init), Toy.machine. by constructor.
  - intros self' w' Hall. inversion Hall; subst; done.
Qed.

(** ** More on a single task *)

Section TaskExtras.
Context `{Pillow}.

(** X1.  [convert_single_webp] never raises: it returns a triple whose
    second component is the path it was given and whose error message is
    [None] exactly when the first component is [True]. *)
Theorem convert_single_webp_result_shape webp_path output_format delete_original w :
  ∃ success err w',
    convert_single_webp (webp_path, output_format, delete_original) w
      = (inr (success, webp_path, err), w')
    ∧ (success = true <-> err = None).
Proof.
  unfold convert_single_webp, try_except, mbind, M_bind, mret, M_ret.
  destruct (conversion webp_path output_format w) as [[e|[]] w1].
  { by exists false, (Some (exn_str e)), w1. }
  destruct delete_original.
  - destruct (os_remove webp_path w1) as [[e|[]] w2].
    + by exists false, (Some (exn_str e)), w2.
    + by exists true, None, w2.
  - by exists true, None, w1.
Qed.

(** X2.  The calls of a task on the file system come in one order: the
    source is opened first; a save, if any, follows, to the output path;
    [os.remove], if called at all, comes last, on the source, only with
    [delete_original] set and only after a save whose encoder produced
    bytes on a writable path. *)
Theorem task_calls_in_order webp_path output_format delete_original w result w' calls :
  convert_single_webp (webp_path, output_format, delete_original) w = (inr result, w') ->
  calls_between w w' calls ->
  let out := out_path webp_path output_format in
  let format := out_format output_format in
  calls = [CallOpen webp_path]
  ∨ (∃ encoded, calls = [CallOpen webp_path; CallSave out format encoded])
  ∨ (∃ bytes,
       delete_original = true ∧ (out ∉ unwritable w)
       ∧ calls = [CallOpen webp_path; CallSave out format (inr bytes);
                  CallRemove webp_path]).
Proof.
  intros Hrun Hcalls out format.
  destruct (convert_single_webp_inv _ _ _ _ _ _ Hrun) as
    [(e & -> & ->)|(b & img & encoded & r1 & w1 & _ & _ & _ & Hsave & Hrest)].
  { left. apply (calls_between_inj _ _ _ _ Hcalls). by unfold calls_between. }
  right.
  assert (r1 = inr () -> ∃ bytes, encoded = inr bytes ∧ (out ∉ unwritable w)) as Hok.
  { revert Hsave. unfold save. cbn. fold out.
    destruct (decide (out ∈ directories w)); [by intros [= <- _]|].
    destruct (decide (out ∈ unwritable w)); [by intros [= <- _]|].
    destruct encoded as [e|bytes]; [by intros [= <- _]|]. eauto. }
  apply save_inv in Hsave as (Hc1 & _). unfold calls_between in Hc1. cbn in Hc1.
  destruct r1 as [e|[]].
  { destruct Hrest as [_ ->]. left. exists encoded.
    apply (calls_between_inj _ _ _ _ Hcalls). unfold calls_between.
    by rewrite Hc1, <-app_assoc. }
  destruct (Hok eq_refl) as (bytes & -> & Hw).
  destruct delete_original.
  - destruct Hrest as (r2 & Hrm & _). apply os_remove_inv in Hrm as [Hc2 _].
    right. exists bytes. split_and!; [done..|].
    apply (calls_between_inj _ _ _ _ Hcalls). unfold calls_between in *.
    by rewrite Hc2, Hc1, <-!app_assoc.
  - destruct Hrest as [_ ->]. left. exists (inr bytes).
    apply (calls_between_inj _ _ _ _ Hcalls). unfold calls_between.
    by rewrite Hc1, <-app_assoc.
Qed.

(** A task never makes a file other than its source disappear, and without
    [delete_original] it makes no file disappear at all. *)
Lemma task_keeps_other_files webp_path output_format delete_original w result w' q :
  convert_single_webp (webp_path, output_format, delete_original) w = (inr result, w') ->
  q ≠ webp_path ∨ delete_original = false ->
  is_Some (files w !! q) -> is_Some (files w' !! q).
Proof.
  intros Hrun Hq Hsome.
  destruct (convert_single_webp_inv _ _ _ _ _ _ Hrun) as
    [(e & -> & ->)|(b & img & encoded & r1 & w1 & _ & _ & _ & Hsave & Hrest)]; [done|].
  apply save_inv in Hsave as (_ & _ & Hother & Hkeep & _). cbn in Hother, Hkeep.
  assert (is_Some (files w1 !! q)) as Hsome1.
  { destruct (decide (q = out_path webp_path output_format)) as [->|Hne].
    - by apply Hkeep.
    - by rewrite Hother. }
  destruct r1 as [e|[]]; [by destruct Hrest as [_ ->]|].
  destruct delete_original; [|by destruct Hrest as [_ ->]].
  destruct Hq as [Hq|?]; [|done].
  destruct Hrest as (r2 & Hrm & _). apply os_remove_inv in Hrm as [_ Hrm].
  destruct r2 as [e|[]]; [by rewrite Hrm|].
  destruct Hrm as [_ ->]. by rewrite lookup_delete_ne.
Qed.

End TaskExtras.

(** ** More on a batch *)

Lemma published_app l1 l2 : published (l1 ++ l2) = published l1 ++ published l2.
Proof. apply omap_app. Qed.

Lemma _on_task_done_tk result self :
  tk (_on_task_done result self)
  = tk self
    ++ [LblProgressConfig (completed_files self + 1) (total_files self);
        ProgressVarSet (completed_files self + 1)]
    ++ (if bool_decide (completed_files self + 1 = total_files self)
        then [InfoDone (total_files self)] else []).
Proof.
  destruct result as [[success webp_path] err]. unfold _on_task_done. cbn.
  case_bool_decide; cbn; by rewrite <-!app_assoc.
Qed.

Section BatchFacts.
Context `{Pillow}.
Variable cpu_count : nat.

Lemma pool_step_progress self0 p p' :
  pool_step cpu_count p p' ->
  total_files (pool_app p) = total_files self0 ->
  progress_inv self0 (pool_app p) -> progress_inv self0 (pool_app p').
Proof.
  intros Hstep Htotal (Hpos & new & Htk & Hpub & Hlast).
  destruct Hstep as
    [t q r self w Hidle
    |before t after q self w result w' Hrun
    |before t after q self w e w' Hrun]; cbn [pool_app] in *.
  - split; [done|]. by exists new.
  - destruct (_on_task_done_spec result self) as (_ & _ & _ & _ & _ & Hc & _).
    cbn zeta in Hc. unfold progress_inv. rewrite Hc, _on_task_done_tk, Htk, Htotal.
    split; [lia|]. eexists. rewrite <-app_assoc. split; [done|]. split.
    + rewrite !published_app, Hpub.
      assert (seqZ 1 (completed_files self + 1)
              = seqZ 1 (completed_files self) ++ [completed_files self + 1]) as ->.
      { rewrite seqZ_app; [|done|done]. f_equal.
        rewrite seqZ_cons, seqZ_nil; [|done|done]. f_equal. apply Z.add_comm. }
      rewrite fmap_app. by case_bool_decide.
    + intros Heq _. rewrite bool_decide_eq_true_2 by done.
      by rewrite !app_assoc, last_snoc.
  - destruct (convert_single_webp_returns t w) as (result & w'' & Hret). congruence.
Qed.

Lemma pool_run_progress self0 p p' :
  rtc (pool_step cpu_count) p p' ->
  batch_inv self0 (queue p) (running p) (pool_app p) ->
  progress_inv self0 (pool_app p) -> progress_inv self0 (pool_app p').
Proof.
  induction 1 as [|p1 p2 p3 Hstep _ IH]; [done|]. intros Hb Hp.
  apply IH.
  - by apply (pool_step_inv cpu_count self0 p1).
  - apply (pool_step_progress self0 p1); [done| |done].
    by destruct Hb as (_ & _ & _ & _ & ? & _).
Qed.

(** A run of the pool relates the machine before and after by any
    preorder that every submitted task respects. *)
Lemma pool_run_world (R : relation world) `{!PreOrder R} (tasks : list task) p p' :
  (∀ t w result w',
     t ∈ tasks -> convert_single_webp t w = (inr result, w') -> R w w') ->
  rtc (pool_step cpu_count) p p' ->
  (∀ t, t ∈ queue p ++ running p -> t ∈ tasks) ->
  R (pool_world p) (pool_world p').
Proof.
  intros Htask Hrun. induction Hrun as [|p1 p2 p3 Hstep _ IH]; [done|].
  intros Hin. destruct Hstep as
    [t q r self w Hidle
    |before t after q self w result w' Hrun'
    |before t after q self w e w' Hrun']; cbn [pool_world queue running] in *.
  - apply IH. intros t' Ht'. apply Hin.
    revert Ht'. rewrite !elem_of_app, !elem_of_cons, elem_of_nil. tauto.
  - etrans; [|apply IH].
    + apply (Htask t w result w'); [|done]. apply Hin.
      rewrite !elem_of_app, elem_of_cons. tauto.
    + intros t' Ht'. apply Hin.
      revert Ht'. rewrite !elem_of_app, elem_of_cons. tauto.
  - destruct (convert_single_webp_returns t w) as (result & w'' & Hret). congruence.
Qed.

(** A click relates the machine before and after by any preorder that the
    tasks of the selection respect. *)
Lemma convert_all_world (R : relation world) `{!PreOrder R} self w self' w' :
  (∀ webp_path w1 result w2,
     webp_path ∈ webp_paths self ->
     convert_single_webp (webp_path, output_format self, delete_original self) w1
       = (inr result, w2) ->
     R w1 w2) ->
  convert_all cpu_count (self, w) (self', w') -> R w w'.
Proof.
  intros Htask Hall.
  inversion Hall as [| |? ? p Hne Hguard Hrun Hdrained]; subst; [done..|].
  apply (pool_run_world R (submitted self) _ _) in Hrun; [done| |].
  - intros t w1 result w2 (webp_path & -> & Hin)%list_elem_of_fmap. by apply Htask.
  - intros t. cbn. by rewrite app_nil_r.
Qed.

End BatchFacts.

Section BatchExtras.
Context `{Pillow}.
Variable cpu_count : nat.

(** A task changes no file but its source and its output. *)
Lemma task_frame webp_path output_format delete_original w result w' q :
  convert_single_webp (webp_path, output_format, delete_original) w = (inr result, w') ->
  q ≠ webp_path -> q ≠ out_path webp_path output_format ->
  files w' !! q = files w !! q.
Proof.
  intros Hrun Hq1 Hq2.
  destruct (task_run _ _ _ _ _ _ Hrun) as
    [(_ & _ & ->)|(b & img & encoded & removal & _ & _ & _ & _ & _ & Hother & _)];
    [done|by apply Hother].
Qed.

(** X3.  Whatever the order in which the tasks complete, a batch changes
    no file but the selected sources and their outputs. *)
Theorem batch_touches_only_its_files self w self' w' q :
  convert_all cpu_count (self, w) (self', w') ->
  q ∉ webp_paths self ->
  q ∉ (fun webp_path => out_path webp_path (output_format self)) <$> webp_paths self ->
  files w' !! q = files w !! q.
Proof.
  intros Hall Hsrc Hout.
  assert (PreOrder (fun w1 w2 : world => files w2 !! q = files w1 !! q)) as Hpre.
  { split; [done|]. intros w1 w2 w3 H12 H23. by rewrite H23. }
  apply (convert_all_world cpu_count
           (fun w1 w2 : world => files w2 !! q = files w1 !! q) self w self' w'); [|done].
  intros webp_path w1 result w2 Hin Hrun.
  apply (task_frame _ _ _ _ _ _ _ Hrun).
  - by intros ->.
  - intros ->. apply Hout. apply list_elem_of_fmap. by exists webp_path.
Qed.

(** X4.  A batch makes no file disappear except, with [delete_original]
    set, selected sources: every other file that existed before the click
    exists after it. *)
Theorem batch_keeps_other_files self w self' w' q :
  convert_all cpu_count (self, w) (self', w') ->
  q ∉ webp_paths self ∨ delete_original self = false ->
  is_Some (files w !! q) -> is_Some (files w' !! q).
Proof.
  intros Hall Hq.
  assert (PreOrder (fun w1 w2 : world =>
            is_Some (files w1 !! q) -> is_Some (files w2 !! q))) as Hpre.
  { split; [by intros w1 ?|]. intros w1 w2 w3 H12 H23 ?. by apply H23, H12. }
  apply (convert_all_world cpu_count
           (fun w1 w2 : world => is_Some (files w1 !! q) -> is_Some (files w2 !! q))
           self w self' w'); [|done].
  intros webp_path w1 result w2 Hin Hrun.
  apply (task_keeps_other_files _ _ _ _ _ _ _ Hrun).
  destruct Hq as [Hq|Hq]; [left|by right]. by intros ->.
Qed.

(** X5.  After a batch of [N >= 1] tasks the progress label was set to
    [1 / N], [2 / N], ..., [N / N] in this order, whatever the order of
    completion and whatever failed, and the last Tk call of the batch is
    the completion message, which names [N]. *)
Theorem progress_counts_up self w self' w' :
  reachable cpu_count self ->
  webp_paths self ≠ [] ->
  convert_all cpu_count (self, w) (self', w') ->
  ∃ new,
    tk self' = tk self ++ new
    ∧ published new
      = (fun c => (c, len (webp_paths self))) <$> seqZ 1 (len (webp_paths self))
    ∧ last new = Some (InfoDone (len (webp_paths self))).
Proof.
  intros Hinv%reachable_inv Hne Hall.
  inversion Hall as [|? ? ? Hguard|? ? p _ Hguard Hrun [Hq Hr]]; subst; [done| |].
  { by rewrite no_webp_in_folder_false in Hguard. }
  pose proof (pool_submitted_inv self w Hinv Hne) as Hb0.
  pose proof (pool_run_inv cpu_count self _ _ Hrun Hb0) as Hb.
  assert (progress_inv self (pool_app (pool_submitted self w))) as Hp0.
  { split; [done|]. exists []. cbn. rewrite app_nil_r. split_and!; [done..|].
    intros <-. lia. }
  pose proof (pool_run_progress cpu_count self _ _ Hrun Hb0 Hp0) as (_ & new & Htk & Hpub & Hlast).
  destruct Hb as (_ & _ & _ & _ & _ & Hcount & _).
  rewrite Hq, Hr in Hcount. unfold len in Hcount at 1 2. cbn in Hcount.
  destruct Hinv as [Htotal _]. rewrite Htotal in *.
  assert (completed_files (pool_app p) = len (webp_paths self)) as Hc by lia.
  rewrite Hc in Hpub. exists new. split_and!; [done..|].
  apply Hlast; [done|]. destruct (webp_paths self); [done|]. unfold len. cbn. lia.
Qed.

(** X6.  A click on the convert button never changes the selection, the
    mode, the options or [total_files]: the same batch can be run
    again. *)
Theorem convert_all_keeps_selection self w self' w' :
  reachable cpu_count self ->
  convert_all cpu_count (self, w) (self', w') ->
  webp_paths self' = webp_paths self ∧ mode self' = mode self
  ∧ output_format self' = output_format self
  ∧ delete_original self' = delete_original self
  ∧ total_files self' = total_files self.
Proof.
  intros Hinv%reachable_inv Hall.
  inversion Hall as [| |? ? p Hne Hguard Hrun Hdrained]; subst; [done..|].
  pose proof (pool_run_inv cpu_count self _ _ Hrun (pool_submitted_inv self w Hinv Hne))
    as (? & ? & ? & ? & ? & _).
  done.
Qed.

(** X7.  From a state the user can reach, a click ends in one of two ways
    only: with the warning to select something first, when nothing is
    selected, or with the pool drained; the warning of line 348 about a
    folder without [.webp] files is never the outcome. *)
Theorem second_guard_never_fires self w self' w' :
  reachable cpu_count self ->
  convert_all cpu_count (self, w) (self', w') ->
  (webp_paths self = [] ∧ self' = tk_do WarnSelectFirst self ∧ w' = w)
  ∨ (webp_paths self ≠ [] ∧ no_webp_in_folder self = false
     ∧ ∃ p, rtc (pool_step cpu_count) (pool_submitted self w) p ∧ drained p
            ∧ self' = pool_app p ∧ w' = pool_world p).
Proof.
  intros Hinv%reachable_inv Hall.
  inversion Hall as [|? ? Hne Hguard|? ? p Hne Hguard Hrun Hdrained]; subst.
  - by left.
  - by rewrite no_webp_in_folder_false in Hguard.
  - right. split_and!; [done..|]. by exists p.
Qed.

End BatchExtras.

(** ** More on the output path *)

Lemma splitext_leading_dots n (rest : pystr) :
  posixpath.sep ∉ rest -> posixpath.extsep ∉ rest ->
  posixpath.splitext (replicate n posixpath.extsep ++ rest)
  = (replicate n posixpath.extsep ++ rest, []).
Proof.
  intros Hsep Hdot. unfold posixpath.splitext, PyStr.upto, PyStr.from.
  rewrite (rfind_notin posixpath.sep).
  2:{ intros [[? _]%elem_of_replicate|?]%elem_of_app; done. }
  destruct n as [|n].
  - cbn [replicate List.app]. by rewrite rfind_notin.
  - replace (replicate (S n) posixpath.extsep ++ rest)
      with (replicate n posixpath.extsep ++ posixpath.extsep :: rest)
      by (by rewrite replicate_S_end, <-app_assoc).
    rewrite rfind_last by done.
    replace (Z.to_nat (len (replicate n posixpath.extsep))) with
      (length (replicate n posixpath.extsep)) by (unfold len; lia).
    rewrite take_app_length. cbn [Z.add Z.to_nat]. rewrite drop_0.
    assert (posixpath.skip_leading_dots (replicate n posixpath.extsep) = false) as ->.
    { clear. induction n as [|n IH]; [done|]. cbn. by rewrite decide_False by auto. }
    by rewrite andb_false_r.
Qed.

(** X8.  The output path does not depend on the extension of the source:
    two sources [dir/stem.e1] and [dir/stem.e2] of one folder are written
    to the same output file. *)
Theorem out_path_ignores_extension (dir : pystr) c (stem e1 e2 : pystr) x output_format :
  c ≠ "/"%char -> "/"%char ∉ stem -> x ∈ stem -> x ≠ "."%char ->
  "/"%char ∉ e1 -> "."%char ∉ e1 -> "/"%char ∉ e2 -> "."%char ∉ e2 ->
  out_path (dir ++ [c] ++ str "/" ++ stem ++ str "." ++ e1) output_format
  = out_path (dir ++ [c] ++ str "/" ++ stem ++ str "." ++ e2) output_format.
Proof.
  intros Hc Hs Hx1 Hx2 H1 H2 H3 H4.
  rewrite (out_path_replaces_extension dir c stem e1 x) by done.
  by rewrite (out_path_replaces_extension dir c stem e2 x).
Qed.

(** X9.  For a source whose name has no extension in the sense of
    [os.path.splitext] (no dot at all, or dots at the start only, as in
    [.webp]) nothing is replaced: the new extension is appended to the
    whole name. *)
Theorem out_path_appends_without_extension (dir : pystr) c n (rest : pystr) output_format :
  c ≠ "/"%char -> "/"%char ∉ rest -> "."%char ∉ rest ->
  out_path (dir ++ [c] ++ str "/" ++ replicate n "."%char ++ rest) output_format
  = dir ++ [c] ++ str "/" ++ replicate n "."%char ++ rest
    ++ (if bool_decide (output_format = str "JPEG") then str ".jpg" else str ".gif").
Proof.
  intros Hc Hsep Hdot. unfold out_path.
  change (str "/") with [posixpath.sep]. change "."%char with posixpath.extsep.
  rewrite (split_dir_name dir c (replicate n posixpath.extsep ++ rest)); [|done|].
  2:{ intros [[? _]%elem_of_replicate|?]%elem_of_app; done. }
  rewrite (splitext_leading_dots n rest) by done.
  rewrite join_dir_name; [by rewrite <-!app_assoc|done|].
  intros [k Hk]. unfold out_ext in Hk.
  destruct n as [|n]; [|by injection Hk].
  destruct rest as [|y rest].
  - by case_bool_decide.
  - injection Hk as -> _. apply Hsep. by left.
Qed.

(** ** More on the selection handlers *)

Lemma listbox_insert_all_keeps l self :
  let self' := listbox_insert_all l self in
  webp_paths self' = webp_paths self ∧ mode self' = mode self
  ∧ output_format self' = output_format self
  ∧ delete_original self' = delete_original self
  ∧ total_files self' = total_files self
  ∧ completed_files self' = completed_files self.
Proof.
  unfold listbox_insert_all. revert self.
  induction l as [|p l IH]; intros self; cbn; [done|].
  destruct (IH (tk_do (ListboxInsert p) self)) as (-> & -> & -> & -> & -> & ->). done.
Qed.

Lemma select_items_finish_fields self :
  let self' := select_items_finish self in
  webp_paths self' = webp_paths self ∧ mode self' = mode self
  ∧ output_format self' = output_format self
  ∧ delete_original self' = delete_original self
  ∧ total_files self' = len (webp_paths self)
  ∧ completed_files self' = 0.
Proof. unfold select_items_finish. cbn. by destruct (0 <? _). Qed.

(** The paths [select_items] selects in folder mode. *)
Lemma select_items_folder_paths self folder_path all_files :
  mode self = folder_mode -> folder_path ≠ [] ->
  let self' := select_items (ChosenFolder folder_path (inr all_files)) self in
  webp_paths self'
  = posixpath.join folder_path
      <$> filter (fun f => PyStr.lower (posixpath.splitext f).2 = str ".webp") all_files
  ∧ mode self' = mode self
  ∧ output_format self' = output_format self
  ∧ delete_original self' = delete_original self
  ∧ total_files self' = len (webp_paths self')
  ∧ completed_files self' = 0.
Proof.
  intros Hmode Hfolder. unfold select_items.
  rewrite bool_decide_eq_true_2 by done. rewrite bool_decide_eq_false_2 by done.
  lazy zeta iota beta.
  match goal with
  | |- context [select_items_finish ?s] =>
      destruct (select_items_finish_fields s) as (-> & -> & -> & -> & -> & ->);
      assert (webp_paths s
              = posixpath.join folder_path
                  <$> filter (fun f => PyStr.lower (posixpath.splitext f).2 = str ".webp")
                        all_files
              ∧ mode s = mode self ∧ output_format s = output_format self
              ∧ delete_original s = delete_original self) as (-> & -> & -> & ->)
  end; [|done].
  case_bool_decide; [done|].
  match goal with
  | |- context [listbox_insert_all ?l ?s] =>
      destruct (listbox_insert_all_keeps l s) as (-> & -> & -> & -> & _)
  end.
  done.
Qed.

(** The fields a selection leaves alone, and its two outcomes for the
    counters: both reset with the new selection, or nothing changed. *)
Lemma select_items_fields answer self :
  let self' := select_items answer self in
  mode self' = mode self
  ∧ output_format self' = output_format self
  ∧ delete_original self' = delete_original self
  ∧ (completed_files self' = 0
     ∨ completed_files self' = completed_files self
       ∧ total_files self' = total_files self).
Proof.
  cbv zeta. destruct (decide (mode self = folder_mode)) as [Hmode|Hmode].
  - destruct answer as [folder_path [e|all_files]|file_paths].
    + unfold select_items. rewrite bool_decide_eq_true_2 by done.
      case_bool_decide; cbn; split_and!; auto.
    + destruct (decide (folder_path = [])) as [->|Hfolder].
      * unfold select_items. rewrite bool_decide_eq_true_2 by done. cbn.
        split_and!; auto.
      * destruct (select_items_folder_paths self folder_path all_files Hmode Hfolder)
          as (_ & -> & -> & -> & _ & ->). split_and!; auto.
    + unfold select_items. rewrite bool_decide_eq_true_2 by done. cbn. split_and!; auto.
  - unfold select_items. rewrite bool_decide_eq_false_2 by done.
    destruct answer as [folder_path listing|file_paths]; [cbn; split_and!; by auto|].
    case_bool_decide; [cbn; split_and!; by auto|].
    lazy zeta iota beta.
    match goal with
    | |- context [select_items_finish ?s] =>
        destruct (select_items_finish_fields s) as (_ & -> & -> & -> & _ & ->)
    end.
    match goal with
    | |- context [listbox_insert_all ?l ?s] =>
        destruct (listbox_insert_all_keeps l s) as (_ & -> & -> & -> & _)
    end.
    cbn. split_and!; auto.
Qed.

Section StateExtras.
Context `{Pillow}.
Variable cpu_count : nat.

(** X10.  In every state the user can reach: [total_files] is the number of
    selected paths; [completed_files] is 0 or the total, never a partial
    count; the mode and the output format are among the values the widgets
    offer; and in folder mode every selected path is named [*.webp] in
    some letter case. *)
Theorem reachable_state_invariant self :
  reachable cpu_count self ->
  total_files self = len (webp_paths self)
  ∧ (completed_files self = 0 ∨ completed_files self = total_files self)
  ∧ (mode self = folder_mode ∨ mode self = files_mode)
  ∧ (output_format self = str "GIF" ∨ output_format self = str "JPEG")
  ∧ (mode self = folder_mode ->
     ∀ p, p ∈ webp_paths self -> PyStr.endswith (PyStr.lower p) (str ".webp") = true).
Proof.
  intros Hreach. pose proof (reachable_inv cpu_count self Hreach) as [Htotal Hwebp].
  split; [done|].
  cut ((completed_files self = 0 ∨ completed_files self = total_files self)
       ∧ (mode self = folder_mode ∨ mode self = files_mode)
       ∧ (output_format self = str "GIF" ∨ output_format self = str "JPEG")).
  { intros (? & ? & ?). split_and!; [done..|].
    intros Hmode p Hp. by apply (proj1 (Forall_forall _ _) (Hwebp Hmode)). }
  clear Htotal Hwebp.
  induction Hreach as [|self v _ IH Hv|self answer _ IH|self v _ IH Hv|self b _ IH
                      |self w self' w' Hreach IH Hall].
  - split_and!; auto.
  - unfold _on_mode_change. case_bool_decide; cbn; split_and!; tauto.
  - destruct (select_items_fields answer self) as (-> & -> & _ & Hc).
    destruct IH as (IH1 & IH2 & IH3). split_and!; [|done..].
    destruct Hc as [->|[-> ->]]; auto.
  - cbn. tauto.
  - cbn. tauto.
  - pose proof (reachable_inv cpu_count self Hreach) as Hinv.
    destruct (convert_all_spec cpu_count _ _ _ _ Hinv Hall)
      as (Hp & Hm & Ht & new & _ & Hnew).
    inversion Hall as [| |? ? p Hne Hguard Hrun Hdrained]; subst; [done..|].
    pose proof (pool_run_inv cpu_count self _ _ Hrun (pool_submitted_inv self w Hinv Hne))
      as (_ & -> & -> & _).
    rewrite bool_decide_eq_false_2 in Hnew by done. destruct Hnew as (_ & _ & ->).
    destruct Hinv as [<- _]. rewrite Ht. destruct IH as (_ & ? & ?). auto.
Qed.

(** X11.  In folder mode, choosing a folder selects exactly the listed
    names whose extension is [.webp] in any letter case, each joined to
    the folder; every selected path then ends in [.webp] once lowered, the
    total is their number and the counter is reset. *)
Theorem folder_selection_keeps_webp_names self folder_path all_files :
  mode self = folder_mode -> folder_path ≠ [] ->
  let self' := select_items (ChosenFolder folder_path (inr all_files)) self in
  (∀ p, p ∈ webp_paths self'
        <-> ∃ f, f ∈ all_files
                 ∧ PyStr.lower (posixpath.splitext f).2 = str ".webp"
                 ∧ p = posixpath.join folder_path f)
  ∧ (∀ p, p ∈ webp_paths self' -> PyStr.endswith (PyStr.lower p) (str ".webp") = true)
  ∧ total_files self' = len (webp_paths self')
  ∧ completed_files self' = 0
  ∧ len (webp_paths self') <= len all_files.
Proof.
  intros Hmode Hfolder.
  destruct (select_items_folder_paths self folder_path all_files Hmode Hfolder)
    as (Hpaths & _ & _ & _ & Htotal & Hcompleted).
  cbv zeta in *. rewrite Htotal, Hcompleted, Hpaths.
  assert (∀ p, p ∈ posixpath.join folder_path
                   <$> filter (fun f => PyStr.lower (posixpath.splitext f).2 = str ".webp")
                         all_files
               <-> ∃ f, f ∈ all_files
                        ∧ PyStr.lower (posixpath.splitext f).2 = str ".webp"
                        ∧ p = posixpath.join folder_path f) as Hmem.
  { intros p. rewrite list_elem_of_fmap. split.
    - intros (f & -> & [Hext Hf]%list_elem_of_filter). by exists f.
    - intros (f & Hf & Hext & ->). exists f. split; [done|].
      by apply list_elem_of_filter. }
  split_and!; [done| |done..|].
  - intros p (f & _ & Hext & ->)%Hmem. by apply listed_path_endswith.
  - unfold len. rewrite length_fmap. apply inj_le, length_filter.
Qed.

(** X12.  A folder in which no name has the extension [.webp] leaves the
    selection empty, with a total of 0 and a placeholder line in the list
    box; a click on the convert button then shows the warning to select
    something first and does nothing else. *)
Theorem folder_without_webp self folder_path all_files w self' w' :
  mode self = folder_mode -> folder_path ≠ [] ->
  (∀ f, f ∈ all_files -> PyStr.lower (posixpath.splitext f).2 ≠ str ".webp") ->
  let self1 := select_items (ChosenFolder folder_path (inr all_files)) self in
  convert_all cpu_count (self1, w) (self', w') ->
  webp_paths self1 = [] ∧ total_files self1 = 0
  ∧ ListboxInsert (str "(폴더에 .webp 파일이 없습니다)") ∈ tk self1
  ∧ self' = tk_do WarnSelectFirst self1 ∧ w' = w.
Proof.
  intros Hmode Hfolder Hnone self1 Hall.
  destruct (select_items_folder_paths self folder_path all_files Hmode Hfolder)
    as (Hpaths & _ & _ & _ & Htotal & _). fold self1 in Hpaths, Htotal.
  assert (filter (fun f => PyStr.lower (posixpath.splitext f).2 = str ".webp") all_files
          = []) as Hnil.
  { apply elem_of_nil_inv. intros f [Hext Hf]%list_elem_of_filter.
    by apply (Hnone f). }
  rewrite Hnil in Hpaths. cbn in Hpaths. rewrite Hpaths in Htotal.
  split_and!; [done|done| | |].
  - subst self1. unfold select_items.
    rewrite bool_decide_eq_true_2 by done. rewrite bool_decide_eq_false_2 by done.
    lazy zeta iota beta. rewrite Hnil. cbn.
    unfold select_items_finish. cbn. change (0 <? len []) with false. cbn.
    rewrite !elem_of_app, !elem_of_cons. tauto.
  - inversion Hall; subst; [done|congruence..].
  - inversion Hall; subst; [done|congruence..].
Qed.

End StateExtras.

(** ** More on the selection in file mode and on mode changes *)

Lemma listbox_insert_all_tk l self :
  tk (listbox_insert_all l self) = tk self ++ (ListboxInsert <$> l).
Proof.
  unfold listbox_insert_all. revert self.
  induction l as [|p l IH]; intros self; cbn; [by rewrite app_nil_r|].
  rewrite IH. cbn. by rewrite <-app_assoc.
Qed.

(** X13.  In file mode the chosen paths become the selection as they are,
    in the order of the dialog and without any check of their names; the
    list box is cleared and shows exactly these paths, the counters are
    reset and the progress bar gets their number as its maximum. *)
Theorem files_selection_is_listed self file_paths :
  mode self ≠ folder_mode -> file_paths ≠ [] ->
  let self' := select_items (ChosenFiles file_paths) self in
  webp_paths self' = file_paths
  ∧ total_files self' = len file_paths
  ∧ completed_files self' = 0
  ∧ tk self'
    = tk self ++ [LblSelectedCount (len file_paths); ListboxDelete]
      ++ (ListboxInsert <$> file_paths)
      ++ [LblProgressConfig 0 (len file_paths); ProgressVarSet 0;
          PbConfigMaximum (len file_paths)].
Proof.
  intros Hmode Hne. cbv zeta. unfold select_items.
  rewrite bool_decide_eq_false_2 by done. rewrite bool_decide_eq_false_2 by done.
  lazy zeta iota beta.
  match goal with
  | |- context [select_items_finish ?s] =>
      assert (webp_paths s = file_paths
              ∧ tk s = tk self ++ [LblSelectedCount (len file_paths); ListboxDelete]
                       ++ (ListboxInsert <$> file_paths)) as [Hpaths Htk];
      [|generalize dependent s; intros s0 Hpaths Htk]
  end.
  { match goal with
    | |- context [listbox_insert_all ?l ?s] =>
        destruct (listbox_insert_all_keeps l s) as (-> & _)
    end.
    rewrite listbox_insert_all_tk. cbn. by rewrite <-!app_assoc. }
  unfold select_items_finish. cbn. rewrite Hpaths.
  assert ((0 <? len file_paths) = true) as ->.
  { apply Z.ltb_lt. destruct file_paths; [done|]. unfold len. cbn. lia. }
  cbn. rewrite Htk, Hpaths. by rewrite <-!app_assoc.
Qed.

Section MoreExtras.
Context `{Pillow}.
Variable cpu_count : nat.

(** X14.  A change of mode discards the selection: whatever was selected
    before, a click on the convert button right after it only shows the
    warning to select something first, runs no task and touches no
    file. *)
Theorem mode_change_discards_selection self w self' w' :
  convert_all cpu_count (_on_mode_change self, w) (self', w') ->
  webp_paths self' = [] ∧ total_files self' = 0 ∧ completed_files self' = 0
  ∧ self' = tk_do WarnSelectFirst (_on_mode_change self) ∧ w' = w.
Proof.
  intros Hall.
  assert (webp_paths (_on_mode_change self) = []) as Hnil
    by (unfold _on_mode_change; by case_bool_decide).
  inversion Hall; subst; [|done..].
  unfold _on_mode_change. by case_bool_decide.
Qed.


(** X16.  A task is not repeatable once it has removed its source: after
    a successful task with [delete_original], the same task run again
    fails on opening the source, and the output of the first run stays
    as it is. *)
Theorem second_run_after_delete_fails webp_path output_format delete_again w w' :
  convert_single_webp (webp_path, output_format, true) w
    = (inr (true, webp_path, None), w') ->
  out_path webp_path output_format ≠ webp_path ->
  ∃ bytes w'',
    files w' !! out_path webp_path output_format = Some bytes
    ∧ convert_single_webp (webp_path, output_format, delete_again) w'
      = (inr (false, webp_path, Some (exn_str (FileNotFoundError webp_path))), w'')
    ∧ files w'' = files w'.
Proof.
  intros Hrun Hout.
  destruct (task_directories _ _ _ _ _ _ Hrun) as [Hdirs Hfile].
  destruct (task_run _ _ _ _ _ _ Hrun) as
    [([=] & _)|(b & img & encoded & removal & _ & _ & _ & _ & _ & _ & Hok & _)].
  destruct (Hok eq_refl) as (bytes & _ & _ & Hfiles).
  exists bytes, (log (CallOpen webp_path) w'). split_and!; [| |done].
  - rewrite Hfiles, lookup_delete_ne by done. apply lookup_insert_eq.
  - apply task_source_unopened, Image_open_missing.
    + rewrite Hdirs. by apply Hfile.
    + rewrite Hfiles. apply lookup_delete_eq.
Qed.

End MoreExtras.

(** ** The output path of a source given without a folder *)

Lemma split_bare_name (name : pystr) :
  posixpath.sep ∉ name -> posixpath.split name = ([], name).
Proof.
  intros Hname. unfold posixpath.split, PyStr.upto, PyStr.from.
  rewrite rfind_notin by done. cbn. by rewrite drop_0.
Qed.

Lemma split_root_name (name : pystr) :
  posixpath.sep ∉ name -> posixpath.split (posixpath.sep :: name) = ([posixpath.sep], name).
Proof.
  intros Hname. unfold posixpath.split, PyStr.upto, PyStr.from.
  assert (PyStr.rfind posixpath.sep (posixpath.sep :: name) = 0) as ->
    by apply (rfind_last posixpath.sep [] name Hname).
  change (Z.to_nat (0 + 1)) with 1%nat. cbn [take drop length replicate].
  rewrite drop_0. rewrite bool_decide_eq_false_2; [done|]. by intros [_ ?].
Qed.

(** X17.  A source named without a folder part is written to the current
    folder, and a source of the root folder to the root folder: the output
    is [stem.jpg] or [stem.gif], respectively [/stem.jpg] or
    [/stem.gif]. *)
Theorem out_path_without_folder (stem e : pystr) x output_format :
  "/"%char ∉ stem -> x ∈ stem -> x ≠ "."%char -> "/"%char ∉ e -> "."%char ∉ e ->
  let ext := if bool_decide (output_format = str "JPEG") then str ".jpg" else str ".gif" in
  out_path (stem ++ str "." ++ e) output_format = stem ++ ext
  ∧ out_path (str "/" ++ stem ++ str "." ++ e) output_format = str "/" ++ stem ++ ext.
Proof.
  intros Hs Hx1 Hx2 He1 He2 ext.
  assert (posixpath.sep ∉ stem ++ str "." ++ e) as Hname.
  { intros [?|[?|?]%elem_of_cons]%elem_of_app; done. }
  assert (∀ k, stem ++ out_ext output_format ≠ posixpath.sep :: k) as Hstart.
  { intros k Hk. destruct stem as [|y stem]; [by apply elem_of_nil in Hx1|].
    injection Hk as -> _. apply Hs. by left. }
  split; unfold out_path.
  - rewrite split_bare_name by done.
    change (str "." ++ e) with (posixpath.extsep :: e).
    rewrite (splitext_stem_ext stem e x) by done.
    unfold posixpath.join, PyStr.startswith.
    rewrite bool_decide_eq_false_2; [done|]. intros [k Hk]. by apply (Hstart k).
  - change (str "/" ++ stem ++ str "." ++ e) with (posixpath.sep :: stem ++ str "." ++ e).
    rewrite split_root_name by done.
    change (str "." ++ e) with (posixpath.extsep :: e).
    rewrite (splitext_stem_ext stem e x) by done.
    unfold posixpath.join, PyStr.startswith.
    rewrite bool_decide_eq_false_2; [done|]. intros [k Hk]. by apply (Hstart k).
Qed.

(** ** The statements at work on the small instance *)

#[local] Existing Instance Toy.pillow.
Lemma batch_reports_every_task_witness :
  (1 <= 4)%nat
  ∧ reachable (H := Toy.pillow) 4 Toy.two_files
  ∧ ((∃ self' w', convert_all (H := Toy.pillow) 4 (Toy.two_files, Toy.machine) (self', w'))
     ∧ ∀ self' w',
         convert_all (H := Toy.pillow) 4 (Toy.two_files, Toy.machine) (self', w') ->
         ∃ new,
           tk self' = tk Toy.two_files ++ new
           ∧ (webp_paths Toy.two_files ≠ [] ->
              progress_updates new = len (webp_paths Toy.two_files)
              ∧ completed_files self' = len (webp_paths Toy.two_files)
              ∧ total_files self' = len (webp_paths Toy.two_files)
              ∧ done_messages new = 1)
           ∧ (webp_paths Toy.two_files = [] ->
              new = [WarnSelectFirst] ∧ w' = Toy.machine
              ∧ progress_updates new = 0 ∧ done_messages new = 0)).
Proof.
  assert (H1 : (1 <= 4)%nat) by lia.
  assert (H2 : reachable (H := Toy.pillow) 4 Toy.two_files).
  { apply reach_select, reach_mode; [apply reach_init|by right]. }
  split; [exact H1|split; [exact H2|]].
  exact (batch_reports_every_task 4 Toy.two_files Toy.machine H1 H2).
Defined.

Lemma delete_error_is_reported_witness :
  let webp_path := str "pics/photo.webp" in
  let w1 := (convert_single_webp (H := Toy.pillow) (webp_path, str "JPEG", false) Toy.locked).2 in
  let w2 := (os_remove webp_path w1).2 in
  convert_single_webp (H := Toy.pillow) (webp_path, str "JPEG", false) Toy.locked
    = (inr (true, webp_path, None), w1)
  ∧ os_remove webp_path w1 = (inl (PermissionError webp_path), w2)
  ∧ convert_single_webp (H := Toy.pillow) (webp_path, str "JPEG", true) Toy.locked
    = (inr (false, webp_path, Some (exn_str (PermissionError webp_path))), w2).
Proof.
  intros webp_path w1 w2.
  assert (H1 : convert_single_webp (H := Toy.pillow) (webp_path, str "JPEG", false) Toy.locked
               = (inr (true, webp_path, None), w1)) by (vm_compute; reflexivity).
  assert (H2 : os_remove webp_path w1 = (inl (PermissionError webp_path), w2))
    by (vm_compute; reflexivity).
  split; [exact H1|split; [exact H2|]].
  exact (delete_error_is_reported webp_path (str "JPEG") Toy.locked w1
           (PermissionError webp_path) w2 H1 H2).
Defined.


Lemma original_removed_iff_success_witness :
  let webp_path := str "pics/anim.webp" in
  let w' := (convert_single_webp (webp_path, str "GIF", true) Toy.machine).2 in
  let result := (true, webp_path, None) in
  convert_single_webp (webp_path, str "GIF", true) Toy.machine = (inr result, w')
  ∧ ((removed webp_path Toy.machine w' <-> true = true ∧ result.1.1 = true)
     ∧ (PyStr.endswith (PyStr.lower webp_path) (str ".webp") = true ->
        result.1.1 = false -> files w' !! webp_path = files Toy.machine !! webp_path)).
Proof.
  intros webp_path w' result.
  assert (H1 : convert_single_webp (webp_path, str "GIF", true) Toy.machine
               = (inr result, w')) by (vm_compute; reflexivity).
  split; [exact H1|].
  exact (original_removed_iff_success webp_path (str "GIF") true Toy.machine result w' H1).
Defined.

Lemma gif_frames_share_one_palette_witness :
  let webp_path := str "pics/anim.webp" in
  let w' := (convert_single_webp (H := Toy.pillow) (webp_path, str "GIF", false) Toy.machine).2 in
  let result := (true, webp_path, None) in
  let encoded := inr [x47; x49; x46; x2c; x2c; x2c] in
  let calls := [CallOpen webp_path; CallSave (str "pics/anim.gif") (str "GIF") encoded] in
  str "GIF" ≠ str "JPEG"
  ∧ convert_single_webp (H := Toy.pillow) (webp_path, str "GIF", false) Toy.machine
    = (inr result, w')
  ∧ calls_between Toy.machine w' calls
  ∧ CallSave (str "pics/anim.gif") (str "GIF") encoded ∈ calls
  ∧ ∃ b img paletted_first frames_rgb first options,
      files Toy.machine !! webp_path = Some b ∧ decode (Pillow := Toy.pillow) b = inr img
      ∧ canonical_palette img paletted_first
      ∧ len (palette_of paletted_first) <= 256
      ∧ Forall2 (remapped paletted_first) (Iterator img) frames_rgb
      ∧ encoded = encode_GIF first options
      ∧ Forall (fun im => palette_of im = palette_of paletted_first)
          (first :: append_images options).
Proof.
  intros webp_path w' result encoded calls.
  assert (H1 : str "GIF" ≠ str "JPEG") by (vm_compute; discriminate).
  assert (H2 : convert_single_webp (H := Toy.pillow) (webp_path, str "GIF", false) Toy.machine
               = (inr result, w')) by (vm_compute; reflexivity).
  assert (H3 : calls_between Toy.machine w' calls) by (vm_compute; reflexivity).
  assert (H4 : CallSave (str "pics/anim.gif") (str "GIF") encoded ∈ calls)
    by (apply list_elem_of_further, list_elem_of_here).
  split; [exact H1|split; [exact H2|split; [exact H3|split; [exact H4|]]]].
  exact (gif_frames_share_one_palette webp_path (str "GIF") false Toy.machine result w'
           calls _ _ encoded H1 H2 H3 H4).
Defined.

Lemma gif_static_or_animated_witness :
  let webp_path := str "pics/anim.webp" in
  let w' := (convert_single_webp (H := Toy.pillow) (webp_path, str "GIF", false) Toy.machine).2 in
  let result := (true, webp_path, None) in
  let encoded := inr [x47; x49; x46; x2c; x2c; x2c] in
  let calls := [CallOpen webp_path; CallSave (str "pics/anim.gif") (str "GIF") encoded] in
  str "GIF" ≠ str "JPEG"
  ∧ convert_single_webp (H := Toy.pillow) (webp_path, str "GIF", false) Toy.machine
    = (inr result, w')
  ∧ calls_between Toy.machine w' calls
  ∧ (let out := out_path webp_path (str "GIF") in
     (∀ p f encoded,
        CallSave p f encoded ∈ calls ->
        p = out ∧ f = str "GIF"
        ∧ ∃ b img paletted_first frames_rgb,
            files Toy.machine !! webp_path = Some b
            ∧ decode (Pillow := Toy.pillow) b = inr img
            ∧ canonical_palette img paletted_first
            ∧ Forall2 (remapped paletted_first) (Iterator img) frames_rgb
            ∧ length frames_rgb = length (Iterator img)
            ∧ (length (Iterator img) = 1%nat ->
               encoded = encode_GIF paletted_first gif_defaults)
            ∧ ((1 < length (Iterator img))%nat ->
               ∃ frame0 rest,
                 frames_rgb = frame0 :: rest
                 ∧ encoded =
                     encode_GIF frame0
                       {| save_all := true; append_images := rest; loop := Some 0;
                          duration :=
                            Some (map (fun fr => default 100 (info fr !! str "duration"))
                                    (Iterator img));
                          disposal := Some 2; gif_optimize := Some false |}))
     ∧ (result.1.1 = true ->
        ∃ bytes,
          List.filter is_save calls = [CallSave out (str "GIF") (inr bytes)]
          ∧ (false = false ∨ out ≠ webp_path -> files w' !! out = Some bytes))).
Proof.
  intros webp_path w' result encoded calls.
  assert (H1 : str "GIF" ≠ str "JPEG") by (vm_compute; discriminate).
  assert (H2 : convert_single_webp (H := Toy.pillow) (webp_path, str "GIF", false) Toy.machine
               = (inr result, w')) by (vm_compute; reflexivity).
  assert (H3 : calls_between Toy.machine w' calls) by (vm_compute; reflexivity).
  split; [exact H1|split; [exact H2|split; [exact H3|]]].
  exact (gif_static_or_animated webp_path (str "GIF") false Toy.machine result w'
           calls H1 H2 H3).
Defined.

(** C5 as stated fails when frames repeat: the source decodes to three
    frames, the task succeeds and hands all three to the GIF encoder, yet
    the file written holds a single frame, because the encoder, as
    Pillow's does, writes a frame identical to the one before it only
    once; the claim asks for a multi-frame image with the three
    frames. *)
Lemma repeated_frames_are_written_once :
  let webp_path := str "pics/blink.webp" in
  let run := convert_single_webp (webp_path, str "GIF", false) Toy.blinking in
  files Toy.blinking !! webp_path = Some [x05; x05; x05]
  ∧ (∃ img, decode [x05; x05; x05] = inr img ∧ length (Iterator img) = 3%nat)
  ∧ run.1 = inr (true, webp_path, None)
  ∧ files run.2 !! str "pics/blink.gif" = Some [x47; x49; x46; x2c]
  ∧ Toy.frames_in [x47; x49; x46; x2c] = 1%nat
  ∧ Toy.frames_in [x47; x49; x46; x2c] ≠ 3%nat.
Proof.
  cbv zeta. split; [by vm_compute|]. split; [eexists; split; by vm_compute|].
  split; [by vm_compute|]. split; [by vm_compute|]. split; [by vm_compute|].
  vm_compute. lia.
Qed.

Lemma jpeg_encodes_first_frame_once_witness :
  let webp_path := str "pics/photo.webp" in
  let w' := (convert_single_webp (webp_path, str "JPEG", true) Toy.machine).2 in
  let result := (true, webp_path, None) in
  let calls := [CallOpen webp_path;
                CallSave (str "pics/photo.jpg") (str "JPEG") (inr [xff; xd8; xff; xd9]);
                CallRemove webp_path] in
  convert_single_webp (webp_path, str "JPEG", true) Toy.machine = (inr result, w')
  ∧ calls_between Toy.machine w' calls
  ∧ ((length (List.filter is_save calls) <= 1)%nat
     ∧ (result.1.1 = true -> length (List.filter is_save calls) = 1%nat)
     ∧ (∀ p f encoded,
          CallSave p f encoded ∈ calls ->
          f = str "JPEG"
          ∧ ∃ b img img_rgb,
              files Toy.machine !! webp_path = Some b ∧ decode b = inr img
              ∧ convert (pixels (first_frame img)) (str "RGB") = inr img_rgb
              ∧ encoded =
                  encode_JPEG img_rgb
                    {| quality := 100; subsampling := 0; jpeg_optimize := true |})).
Proof.
  intros webp_path w' result calls.
  assert (H1 : convert_single_webp (webp_path, str "JPEG", true) Toy.machine
               = (inr result, w')) by (vm_compute; reflexivity).
  assert (H2 : calls_between Toy.machine w' calls) by (vm_compute; reflexivity).
  split; [exact H1|split; [exact H2|]].
  exact (jpeg_encodes_first_frame_once webp_path true Toy.machine result w' calls H1 H2).
Defined.

(** C7 as stated fails for a source that does not decode: the task on the
    corrupt file returns a failure, makes no save at all and leaves the
    files as they were; no output file is written, whereas the claim asks
    for exactly one for every task. *)
Lemma corrupt_source_writes_no_output :
  let run := convert_single_webp (str "pics/bad.webp", str "JPEG", false) Toy.machine in
  run.1 = inr (false, str "pics/bad.webp", Some (str "cannot identify image file"))
  ∧ List.filter is_save (trace run.2) = []
  ∧ length (List.filter is_save (trace run.2)) ≠ 1%nat
  ∧ files run.2 = files Toy.machine
  ∧ files run.2 !! str "pics/bad.jpg" = None.
Proof.
  cbv zeta. split; [by vm_compute|]. split; [by vm_compute|].
  split; [vm_compute; lia|]. split; [reflexivity|by vm_compute].
Qed.

Lemma output_written_beside_source_witness :
  let webp_path := str "pics/photo.webp" in
  let w' := (convert_single_webp (webp_path, str "JPEG", false) Toy.machine).2 in
  let result := (true, webp_path, None) in
  let calls := [CallOpen webp_path;
                CallSave (str "pics/photo.jpg") (str "JPEG") (inr [xff; xd8; xff; xd9])] in
  convert_single_webp (webp_path, str "JPEG", false) Toy.machine = (inr result, w')
  ∧ calls_between Toy.machine w' calls
  ∧ (let out :=
       posixpath.join (posixpath.split webp_path).1
         ((posixpath.splitext (posixpath.split webp_path).2).1
            ++ (if bool_decide (str "JPEG" = str "JPEG") then str ".jpg" else str ".gif")) in
     (length (List.filter is_save calls) <= 1)%nat
     ∧ (∀ p f encoded, CallSave p f encoded ∈ calls -> p = out)
     ∧ (∀ q, q ≠ out -> q ≠ webp_path -> files w' !! q = files Toy.machine !! q)
     ∧ (result.1.1 = true ->
        ∃ bytes,
          List.filter is_save calls = [CallSave out (out_format (str "JPEG")) (inr bytes)]
          ∧ (out ≠ webp_path -> files w' !! out = Some bytes))
     ∧ (∀ dir c stem e x,
          webp_path = dir ++ [c] ++ str "/" ++ stem ++ str "." ++ e ->
          c ≠ "/"%char -> "/"%char ∉ stem -> "/"%char ∉ e -> "."%char ∉ e ->
          x ∈ stem -> x ≠ "."%char ->
          out = dir ++ [c] ++ str "/" ++ stem
                ++ (if bool_decide (str "JPEG" = str "JPEG") then str ".jpg" else str ".gif"))
     ∧ (List.filter is_save calls = [] -> result.1.1 = false ∧ files w' = files Toy.machine)
     ∧ (files Toy.machine !! webp_path = None ∨ webp_path ∈ directories Toy.machine
        ∨ (∃ b e, files Toy.machine !! webp_path = Some b ∧ decode b = inl e) ->
        calls = [CallOpen webp_path] ∧ result.1.1 = false
        ∧ files w' = files Toy.machine)).
Proof.
  intros webp_path w' result calls.
  assert (H1 : convert_single_webp (webp_path, str "JPEG", false) Toy.machine
               = (inr result, w')) by (vm_compute; reflexivity).
  assert (H2 : calls_between Toy.machine w' calls) by (vm_compute; reflexivity).
  split; [exact H1|split; [exact H2|]].
  exact (output_written_beside_source webp_path (str "JPEG") false Toy.machine result w'
           calls H1 H2).
Defined.

Lemma only_JPEG_selects_the_jpeg_encoder_witness :
  let webp_path := str "pics/photo.webp" in
  let output_format := str "PNG" in
  let w' := (convert_single_webp (webp_path, output_format, false) Toy.machine).2 in
  let result := (true, webp_path, None) in
  let calls := [CallOpen webp_path;
                CallSave (str "pics/photo.gif") (str "GIF") (inr [x47; x49; x46; x2c])] in
  convert_single_webp (webp_path, output_format, false) Toy.machine = (inr result, w')
  ∧ calls_between Toy.machine w' calls
  ∧ ((output_format ≠ str "JPEG" ->
      convert_single_webp (webp_path, output_format, false) Toy.machine
      = convert_single_webp (webp_path, str "GIF", false) Toy.machine)
     ∧ (∀ p f encoded,
          CallSave p f encoded ∈ calls ->
          (output_format = str "JPEG" ∧ f = str "JPEG" ∧ str ".jpg" `suffix_of` p
           ∧ ∃ img, jpeg_call img encoded)
          ∨ (output_format ≠ str "JPEG" ∧ f = str "GIF" ∧ str ".gif" `suffix_of` p
             ∧ ∃ img, gif_call img encoded))
     ∧ (output_format ≠ str "JPEG" -> result.1.1 = true ->
        ∃ p bytes, CallSave p (str "GIF") (inr bytes) ∈ calls ∧ str ".gif" `suffix_of` p
          ∧ (false = false ∨ p ≠ webp_path -> files w' !! p = Some bytes))).
Proof.
  intros webp_path output_format w' result calls.
  assert (H1 : convert_single_webp (webp_path, output_format, false) Toy.machine
               = (inr result, w')) by (vm_compute; reflexivity).
  assert (H2 : calls_between Toy.machine w' calls) by (vm_compute; reflexivity).
  split; [exact H1|split; [exact H2|]].
  exact (only_JPEG_selects_the_jpeg_encoder webp_path output_format false Toy.machine
           result w' calls H1 H2).
Defined.

Lemma two_files_reachable `{Pillow} cpu_count : reachable cpu_count Toy.two_files.
Proof. apply reach_select, reach_mode; [apply reach_init|by right]. Qed.

Lemma task_calls_in_order_witness :
  let webp_path := str "pics/photo.webp" in
  let w' := (convert_single_webp (webp_path, str "JPEG", true) Toy.machine).2 in
  let result := (true, webp_path, None) in
  let calls := [CallOpen webp_path;
                CallSave (str "pics/photo.jpg") (str "JPEG") (inr [xff; xd8; xff; xd9]);
                CallRemove webp_path] in
  convert_single_webp (webp_path, str "JPEG", true) Toy.machine = (inr result, w')
  ∧ calls_between Toy.machine w' calls
  ∧ (let out := out_path webp_path (str "JPEG") in
     let format := out_format (str "JPEG") in
     calls = [CallOpen webp_path]
     ∨ (∃ encoded, calls = [CallOpen webp_path; CallSave out format encoded])
     ∨ (∃ bytes,
          true = true ∧ (out ∉ unwritable Toy.machine)
          ∧ calls = [CallOpen webp_path; CallSave out format (inr bytes);
                     CallRemove webp_path])).
Proof.
  intros webp_path w' result calls.
  assert (H1 : convert_single_webp (webp_path, str "JPEG", true) Toy.machine
               = (inr result, w')) by (vm_compute; reflexivity).
  assert (H2 : calls_between Toy.machine w' calls) by (vm_compute; reflexivity).
  split; [exact H1|split; [exact H2|]].
  exact (task_calls_in_order webp_path (str "JPEG") true Toy.machine result w' calls H1 H2).
Defined.

Lemma batch_touches_only_its_files_witness :
  let r := convert_all_in_order Toy.two_files Toy.machine in
  let q := str "pics/anim.webp" in
  convert_all 4 (Toy.two_files, Toy.machine) (r.1, r.2)
  ∧ (q ∉ webp_paths Toy.two_files)
  ∧ (q ∉ (fun webp_path => out_path webp_path (output_format Toy.two_files))
           <$> webp_paths Toy.two_files)
  ∧ files r.2 !! q = files Toy.machine !! q.
Proof.
  intros r q.
  assert (H1 : convert_all 4 (Toy.two_files, Toy.machine) (r.1, r.2)).
  { rewrite <-surjective_pairing.
    apply convert_all_in_order_run; [lia|]. apply (reachable_inv 4), two_files_reachable. }
  assert (H2 : q ∉ webp_paths Toy.two_files)
    by (apply (bool_decide_eq_false_1 _); vm_compute; reflexivity).
  assert (H3 : q ∉ (fun webp_path => out_path webp_path (output_format Toy.two_files))
                     <$> webp_paths Toy.two_files)
    by (apply (bool_decide_eq_false_1 _); vm_compute; reflexivity).
  split; [exact H1|split; [exact H2|split; [exact H3|]]].
  exact (batch_touches_only_its_files 4 Toy.two_files Toy.machine r.1 r.2 q H1 H2 H3).
Defined.

Lemma batch_keeps_other_files_witness :
  let r := convert_all_in_order Toy.two_files Toy.machine in
  let q := str "pics/photo.webp" in
  convert_all 4 (Toy.two_files, Toy.machine) (r.1, r.2)
  ∧ (q ∉ webp_paths Toy.two_files ∨ delete_original Toy.two_files = false)
  ∧ is_Some (files Toy.machine !! q)
  ∧ is_Some (files r.2 !! q).
Proof.
  intros r q.
  assert (H1 : convert_all 4 (Toy.two_files, Toy.machine) (r.1, r.2)).
  { rewrite <-surjective_pairing.
    apply convert_all_in_order_run; [lia|]. apply (reachable_inv 4), two_files_reachable. }
  assert (H2 : q ∉ webp_paths Toy.two_files ∨ delete_original Toy.two_files = false)
    by (right; reflexivity).
  assert (H3 : is_Some (files Toy.machine !! q)) by (exists [x07]; reflexivity).
  split; [exact H1|split; [exact H2|split; [exact H3|]]].
  exact (batch_keeps_other_files 4 Toy.two_files Toy.machine r.1 r.2 q H1 H2 H3).
Defined.

Lemma progress_counts_up_witness :
  let r := convert_all_in_order Toy.two_files Toy.machine in
  reachable 4 Toy.two_files
  ∧ webp_paths Toy.two_files ≠ []
  ∧ convert_all 4 (Toy.two_files, Toy.machine) (r.1, r.2)
  ∧ ∃ new,
      tk r.1 = tk Toy.two_files ++ new
      ∧ published new
        = (fun c => (c, len (webp_paths Toy.two_files)))
            <$> seqZ 1 (len (webp_paths Toy.two_files))
      ∧ last new = Some (InfoDone (len (webp_paths Toy.two_files))).
Proof.
  intros r.
  assert (H1 : reachable 4 Toy.two_files) by apply two_files_reachable.
  assert (H2 : webp_paths Toy.two_files ≠ []) by (vm_compute; discriminate).
  assert (H3 : convert_all 4 (Toy.two_files, Toy.machine) (r.1, r.2)).
  { rewrite <-surjective_pairing.
    apply convert_all_in_order_run; [lia|]. by apply (reachable_inv 4). }
  split; [exact H1|split; [exact H2|split; [exact H3|]]].
  exact (progress_counts_up 4 Toy.two_files Toy.machine r.1 r.2 H1 H2 H3).
Defined.

Lemma convert_all_keeps_selection_witness :
  let r := convert_all_in_order Toy.two_files Toy.machine in
  reachable 4 Toy.two_files
  ∧ convert_all 4 (Toy.two_files, Toy.machine) (r.1, r.2)
  ∧ (webp_paths r.1 = webp_paths Toy.two_files ∧ mode r.1 = mode Toy.two_files
     ∧ output_format r.1 = output_format Toy.two_files
     ∧ delete_original r.1 = delete_original Toy.two_files
     ∧ total_files r.1 = total_files Toy.two_files).
Proof.
  intros r.
  assert (H1 : reachable 4 Toy.two_files) by apply two_files_reachable.
  assert (H2 : convert_all 4 (Toy.two_files, Toy.machine) (r.1, r.2)).
  { rewrite <-surjective_pairing.
    apply convert_all_in_order_run; [lia|]. by apply (reachable_inv 4). }
  split; [exact H1|split; [exact H2|]].
  exact (convert_all_keeps_selection 4 Toy.two_files Toy.machine r.1 r.2 H1 H2).
Defined.

Lemma second_guard_never_fires_witness :
  let r := convert_all_in_order Toy.two_files Toy.machine in
  reachable 4 Toy.two_files
  ∧ convert_all 4 (Toy.two_files, Toy.machine) (r.1, r.2)
  ∧ ((webp_paths Toy.two_files = [] ∧ r.1 = tk_do WarnSelectFirst Toy.two_files
      ∧ r.2 = Toy.machine)
     ∨ (webp_paths Toy.two_files ≠ [] ∧ no_webp_in_folder Toy.two_files = false
        ∧ ∃ p, rtc (pool_step 4) (pool_submitted Toy.two_files Toy.machine) p ∧ drained p
               ∧ r.1 = pool_app p ∧ r.2 = pool_world p)).
Proof.
  intros r.
  assert (H1 : reachable 4 Toy.two_files) by apply two_files_reachable.
  assert (H2 : convert_all 4 (Toy.two_files, Toy.machine) (r.1, r.2)).
  { rewrite <-surjective_pairing.
    apply convert_all_in_order_run; [lia|]. by apply (reachable_inv 4). }
  split; [exact H1|split; [exact H2|]].
  exact (second_guard_never_fires 4 Toy.two_files Toy.machine r.1 r.2 H1 H2).
Defined.

Lemma out_path_ignores_extension_witness :
  "s"%char ≠ "/"%char ∧ ("/"%char ∉ str "photo") ∧ ("p"%char ∈ str "photo")
  ∧ "p"%char ≠ "."%char
  ∧ ("/"%char ∉ str "webp") ∧ ("."%char ∉ str "webp")
  ∧ ("/"%char ∉ str "WEBP") ∧ ("."%char ∉ str "WEBP")
  ∧ out_path (str "pic" ++ ["s"%char] ++ str "/" ++ str "photo" ++ str "." ++ str "webp")
      (str "GIF")
    = out_path (str "pic" ++ ["s"%char] ++ str "/" ++ str "photo" ++ str "." ++ str "WEBP")
        (str "GIF").
Proof.
  assert (H1 : "s"%char ≠ "/"%char) by discriminate.
  assert (H2 : "/"%char ∉ str "photo")
    by (apply (bool_decide_eq_false_1 _); vm_compute; reflexivity).
  assert (H3 : "p"%char ∈ str "photo")
    by (apply (bool_decide_eq_true_1 _); vm_compute; reflexivity).
  assert (H4 : "p"%char ≠ "."%char) by discriminate.
  assert (H5 : "/"%char ∉ str "webp")
    by (apply (bool_decide_eq_false_1 _); vm_compute; reflexivity).
  assert (H6 : "."%char ∉ str "webp")
    by (apply (bool_decide_eq_false_1 _); vm_compute; reflexivity).
  assert (H7 : "/"%char ∉ str "WEBP")
    by (apply (bool_decide_eq_false_1 _); vm_compute; reflexivity).
  assert (H8 : "."%char ∉ str "WEBP")
    by (apply (bool_decide_eq_false_1 _); vm_compute; reflexivity).
  split; [exact H1|split; [exact H2|split; [exact H3|split; [exact H4|]]]].
  split; [exact H5|split; [exact H6|split; [exact H7|split; [exact H8|]]]].
  exact (out_path_ignores_extension (str "pic") "s"%char (str "photo") (str "webp")
           (str "WEBP") "p"%char (str "GIF") H1 H2 H3 H4 H5 H6 H7 H8).
Defined.

Lemma out_path_appends_without_extension_witness :
  "s"%char ≠ "/"%char ∧ ("/"%char ∉ str "webp") ∧ ("."%char ∉ str "webp")
  ∧ out_path (str "pic" ++ ["s"%char] ++ str "/" ++ replicate 1 "."%char ++ str "webp")
      (str "JPEG")
    = str "pic" ++ ["s"%char] ++ str "/" ++ replicate 1 "."%char ++ str "webp"
      ++ (if bool_decide (str "JPEG" = str "JPEG") then str ".jpg" else str ".gif").
Proof.
  assert (H1 : "s"%char ≠ "/"%char) by discriminate.
  assert (H2 : "/"%char ∉ str "webp")
    by (apply (bool_decide_eq_false_1 _); vm_compute; reflexivity).
  assert (H3 : "."%char ∉ str "webp")
    by (apply (bool_decide_eq_false_1 _); vm_compute; reflexivity).
  split; [exact H1|split; [exact H2|split; [exact H3|]]].
  exact (out_path_appends_without_extension (str "pic") "s"%char 1 (str "webp") (str "JPEG")
           H1 H2 H3).
Defined.

Lemma reachable_state_invariant_witness :
  reachable 4 Toy.two_files
  ∧ (total_files Toy.two_files = len (webp_paths Toy.two_files)
     ∧ (completed_files Toy.two_files = 0
        ∨ completed_files Toy.two_files = total_files Toy.two_files)
     ∧ (mode Toy.two_files = folder_mode ∨ mode Toy.two_files = files_mode)
     ∧ (output_format Toy.two_files = str "GIF" ∨ output_format Toy.two_files = str "JPEG")
     ∧ (mode Toy.two_files = folder_mode ->
        ∀ p, p ∈ webp_paths Toy.two_files ->
             PyStr.endswith (PyStr.lower p) (str ".webp") = true)).
Proof.
  assert (H1 : reachable 4 Toy.two_files) by apply two_files_reachable.
  split; [exact H1|].
  exact (reachable_state_invariant 4 Toy.two_files H1).
Defined.

Lemma folder_selection_keeps_webp_names_witness :
  let all_files := [str "photo.webp"; str "notes.txt"; str "ANIM.WEBP"] in
  let self' := select_items (ChosenFolder (str "pics") (inr all_files)) init in
  mode init = folder_mode ∧ str "pics" ≠ []
  ∧ ((∀ p, p ∈ webp_paths self'
           <-> ∃ f, f ∈ all_files
                    ∧ PyStr.lower (posixpath.splitext f).2 = str ".webp"
                    ∧ p = posixpath.join (str "pics") f)
     ∧ (∀ p, p ∈ webp_paths self' -> PyStr.endswith (PyStr.lower p) (str ".webp") = true)
     ∧ total_files self' = len (webp_paths self')
     ∧ completed_files self' = 0
     ∧ len (webp_paths self') <= len all_files).
Proof.
  intros all_files self'.
  assert (H1 : mode init = folder_mode) by reflexivity.
  assert (H2 : str "pics" ≠ []) by (vm_compute; discriminate).
  split; [exact H1|split; [exact H2|]].
  exact (folder_selection_keeps_webp_names init (str "pics") all_files H1 H2).
Defined.

Lemma folder_without_webp_witness :
  let all_files := [str "notes.txt"] in
  let self1 := select_items (ChosenFolder (str "docs") (inr all_files)) init in
  mode init = folder_mode ∧ str "docs" ≠ []
  ∧ (∀ f, f ∈ all_files -> PyStr.lower (posixpath.splitext f).2 ≠ str ".webp")
  ∧ convert_all 4 (self1, Toy.machine) (tk_do WarnSelectFirst self1, Toy.machine)
  ∧ (webp_paths self1 = [] ∧ total_files self1 = 0
     ∧ ListboxInsert (str "(폴더에 .webp 파일이 없습니다)") ∈ tk self1
     ∧ tk_do WarnSelectFirst self1 = tk_do WarnSelectFirst self1
     ∧ Toy.machine = Toy.machine).
Proof.
  intros all_files self1.
  assert (H1 : mode init = folder_mode) by reflexivity.
  assert (H2 : str "docs" ≠ []) by (vm_compute; discriminate).
  assert (H3 : ∀ f, f ∈ all_files -> PyStr.lower (posixpath.splitext f).2 ≠ str ".webp").
  { intros f Hf. apply list_elem_of_singleton in Hf. rewrite Hf. vm_compute. discriminate. }
  assert (H4 : convert_all 4 (self1, Toy.machine) (tk_do WarnSelectFirst self1, Toy.machine))
    by (apply convert_all_nothing; vm_compute; reflexivity).
  split; [exact H1|split; [exact H2|split; [exact H3|split; [exact H4|]]]].
  exact (folder_without_webp 4 init (str "docs") all_files Toy.machine
           (tk_do WarnSelectFirst self1) Toy.machine H1 H2 H3 H4).
Defined.

Lemma files_selection_is_listed_witness :
  let self := _on_mode_change (set_mode files_mode init) in
  let file_paths := [str "pics/photo.webp"; str "pics/bad.webp"] in
  let self' := select_items (ChosenFiles file_paths) self in
  mode self ≠ folder_mode ∧ file_paths ≠ []
  ∧ (webp_paths self' = file_paths
     ∧ total_files self' = len file_paths
     ∧ completed_files self' = 0
     ∧ tk self'
       = tk self ++ [LblSelectedCount (len file_paths); ListboxDelete]
         ++ (ListboxInsert <$> file_paths)
         ++ [LblProgressConfig 0 (len file_paths); ProgressVarSet 0;
             PbConfigMaximum (len file_paths)]).
Proof.
  intros self file_paths self'.
  assert (H1 : mode self ≠ folder_mode) by (vm_compute; discriminate).
  assert (H2 : file_paths ≠ []) by discriminate.
  split; [exact H1|split; [exact H2|]].
  exact (files_selection_is_listed self file_paths H1 H2).
Defined.

Lemma mode_change_discards_selection_witness :
  let self := _on_mode_change Toy.two_files in
  convert_all 4 (self, Toy.machine) (tk_do WarnSelectFirst self, Toy.machine)
  ∧ (webp_paths (tk_do WarnSelectFirst self) = []
     ∧ total_files (tk_do WarnSelectFirst self) = 0
     ∧ completed_files (tk_do WarnSelectFirst self) = 0
     ∧ tk_do WarnSelectFirst self = tk_do WarnSelectFirst self
     ∧ Toy.machine = Toy.machine).
Proof.
  intros self.
  assert (H1 : convert_all 4 (self, Toy.machine) (tk_do WarnSelectFirst self, Toy.machine))
    by (apply convert_all_nothing; vm_compute; reflexivity).
  split; [exact H1|].
  exact (mode_change_discards_selection 4 Toy.two_files Toy.machine
           (tk_do WarnSelectFirst self) Toy.machine H1).
Defined.


Lemma second_run_after_delete_fails_witness :
  let webp_path := str "pics/photo.webp" in
  let w' := (convert_single_webp (webp_path, str "JPEG", true) Toy.machine).2 in
  convert_single_webp (webp_path, str "JPEG", true) Toy.machine
    = (inr (true, webp_path, None), w')
  ∧ out_path webp_path (str "JPEG") ≠ webp_path
  ∧ ∃ bytes w'',
      files w' !! out_path webp_path (str "JPEG") = Some bytes
      ∧ convert_single_webp (webp_path, str "JPEG", false) w'
        = (inr (false, webp_path, Some (exn_str (FileNotFoundError webp_path))), w'')
      ∧ files w'' = files w'.
Proof.
  intros webp_path w'.
  assert (H1 : convert_single_webp (webp_path, str "JPEG", true) Toy.machine
               = (inr (true, webp_path, None), w')) by (vm_compute; reflexivity).
  assert (H2 : out_path webp_path (str "JPEG") ≠ webp_path) by (vm_compute; discriminate).
  split; [exact H1|split; [exact H2|]].
  exact (second_run_after_delete_fails webp_path (str "JPEG") false Toy.machine w' H1 H2).
Defined.

Lemma out_path_without_folder_witness :
  ("/"%char ∉ str "photo") ∧ ("p"%char ∈ str "photo") ∧ "p"%char ≠ "."%char
  ∧ ("/"%char ∉ str "webp") ∧ ("."%char ∉ str "webp")
  ∧ (let ext := if bool_decide (str "JPEG" = str "JPEG") then str ".jpg" else str ".gif" in
     out_path (str "photo" ++ str "." ++ str "webp") (str "JPEG") = str "photo" ++ ext
     ∧ out_path (str "/" ++ str "photo" ++ str "." ++ str "webp") (str "JPEG")
       = str "/" ++ str "photo" ++ ext).
Proof.
  assert (H1 : "/"%char ∉ str "photo")
    by (apply (bool_decide_eq_false_1 _); vm_compute; reflexivity).
  assert (H2 : "p"%char ∈ str "photo")
    by (apply (bool_decide_eq_true_1 _); vm_compute; reflexivity).
  assert (H3 : "p"%char ≠ "."%char) by discriminate.
  assert (H4 : "/"%char ∉ str "webp")
    by (apply (bool_decide_eq_false_1 _); vm_compute; reflexivity).
  assert (H5 : "."%char ∉ str "webp")
    by (apply (bool_decide_eq_false_1 _); vm_compute; reflexivity).
  split; [exact H1|split; [exact H2|split; [exact H3|split; [exact H4|split; [exact H5|]]]]].
  exact (out_path_without_folder (str "photo") (str "webp") "p"%char (str "JPEG")
           H1 H2 H3 H4 H5).
Defined.
